(** * Real-Estate-Research-Assistant: the RAG service and its validators

    A shallow embedding of [src/utils/validators.py], [src/config.py],
    [src/utils/exceptions.py] and [src/services/rag_service.py], and the
    properties of the orchestration they implement: input validation,
    exception translation, lazy initialisation of the three handles, the
    order of the ingestion steps and the state of the vector store after a
    failed ingestion.

    The service talks to systems that are not part of the repository (the
    URL loader, the text splitter, the embedding model, the Chroma
    collection, the hosted LLM, [urllib.parse.urlparse], [uuid4]).  Their
    results are taken from a record of oracles, so every theorem holds for
    all behaviours of those systems; a small test double instantiates the
    record in the examples. *)

From Stdlib Require Import NArith Ascii String.
From stdpp Require Import base list gmap pretty.

Set Default Proof Using "Type".
Open Scope list_scope.

(** ** Python strings

    A Python [str] is a sequence of Unicode code points; [len] counts code
    points.  A character is its code point. *)

Abbreviation char := N (only parsing).
Abbreviation str := (list N) (only parsing).

(** A literal of the source, for ASCII text. *)
Definition py (s : string) : str :=
  N_of_ascii <$> list_ascii_of_string s.

(** Truth value of a sequence ([if not urls], [if not query]). *)
Definition truthy {A} (l : list A) : bool :=
  match l with [] => false | _ :: _ => true end.

(** [str.isspace] on one character: the code points CPython treats as
    whitespace, which are the ones [str.strip()] removes. *)
Definition isspace (c : char) : bool :=
  (((9 <=? c) && (c <=? 13)) || ((28 <=? c) && (c <=? 32))
   || (c =? 133) || (c =? 160) || (c =? 5760)
   || ((8192 <=? c) && (c <=? 8202))
   || (c =? 8232) || (c =? 8233) || (c =? 8239) || (c =? 8287)
   || (c =? 12288))%N.

Fixpoint lstrip (s : str) : str :=
  match s with
  | [] => []
  | c :: s' => if isspace c then lstrip s' else s
  end.

Definition rstrip (s : str) : str := reverse (lstrip (reverse s)).

(** [s.strip()] *)
Definition strip (s : str) : str := rstrip (lstrip s).

(** [re.sub(r'[...]', '', s)] for a character class: every character of
    the class is deleted. *)
Definition re_sub_class (class : list char) (s : str) : str :=
  filter (fun c => c ∉ class) s.

(** [str(n)] for a non-negative integer, as an f-string prints it. *)
Definition str_of_nat (n : nat) : str := py (pretty n).

(** Literals stay folded in proofs; [vm_compute] evaluates them. *)
#[global] Opaque py str_of_nat.

(** ** Exceptions ([utils/exceptions.py])

    The six classes of the tool derive from [RealEstateToolException];
    [BuiltinException] stands for any other subclass of Python's
    [Exception] (a [ValueError] of [urlparse], a network error of the
    loader, ...), named by its class name.  [exc_str] is [str(e)]. *)

Inductive ExcClass : Type :=
| RealEstateToolException
| URLProcessingError
| VectorStoreError
| LLMError
| ValidationError
| ConfigurationError
| RateLimitError
| BuiltinException (name : str).

#[global] Instance ExcClass_eq_dec : EqDecision ExcClass.
Proof. solve_decision. Defined.

Record exn : Type := Exn { exc_class : ExcClass; exc_str : str }.

#[global] Instance exn_eq_dec : EqDecision exn.
Proof. solve_decision. Defined.

(** [issubclass c d] for the classes above. *)
Definition issubclass (c d : ExcClass) : bool :=
  bool_decide (c = d)
  || match d, c with
     | RealEstateToolException, BuiltinException _ => false
     | RealEstateToolException, _ => true
     | _, _ => false
     end.

(** [isinstance(e, (c1, ..., cn))] *)
Definition isinstance (e : exn) (classes : list ExcClass) : bool :=
  existsb (issubclass (exc_class e)) classes.

(** The outcome of a call: a value or a raised exception. *)
Inductive Res (A : Type) : Type :=
| Ok (a : A)
| Raise (e : exn).
Arguments Ok {A} a.
Arguments Raise {A} e.

#[global] Instance Res_eq_dec {A} `{EqDecision A} : EqDecision (Res A).
Proof. solve_decision. Defined.

(** [try: body except Exception as e: handler(e)] for code without side
    effects. *)
Definition try_except_pure {A} (body : Res A) (handler : exn -> Res A) : Res A :=
  match body with
  | Ok a => Ok a
  | Raise e => handler e
  end.

(** ** Settings ([config.py])

    The fields the service and the validators read, with the defaults the
    module declares. *)

Record Settings : Type := {
  groq_model : str;
  llm_max_tokens : nat;
  embedding_model : str;
  chunk_size : nat;
  chunk_overlap : nat;
  vectorstore_dir : str;
  collection_name : str;
  max_urls_per_request : nat;
  max_query_length : nat
}.

Definition GROQ_MODEL : str := py "llama-3.3-70b-versatile".
Definition LLM_MAX_TOKENS : nat := 500.
Definition EMBEDDING_MODEL : str := py "sentence-transformers/all-MiniLM-L6-v2".
Definition CHUNK_SIZE : nat := 1000.
Definition CHUNK_OVERLAP : nat := 200.
(** [Path(__file__).parent / "data" / "vectorstore"], relative to the
    package. *)
Definition VECTORSTORE_DIR : str := py "data/vectorstore".
Definition COLLECTION_NAME : str := py "docs".
Definition MAX_URLS_PER_REQUEST : nat := 10.
Definition MAX_QUERY_LENGTH : nat := 500.

Definition settings : Settings := {|
  groq_model := GROQ_MODEL;
  llm_max_tokens := LLM_MAX_TOKENS;
  embedding_model := EMBEDDING_MODEL;
  chunk_size := CHUNK_SIZE;
  chunk_overlap := CHUNK_OVERLAP;
  vectorstore_dir := VECTORSTORE_DIR;
  collection_name := COLLECTION_NAME;
  max_urls_per_request := MAX_URLS_PER_REQUEST;
  max_query_length := MAX_QUERY_LENGTH
|}.

(** ** Validators ([utils/validators.py]) *)

(** The two fields of [urlparse]'s result that [validate_url] reads. *)
Record ParseResult : Type := { scheme : str; netloc : str }.

(** The characters [validate_query] deletes: less-than, greater-than, the
    double quote and the single quote. *)
Definition harmful_chars : list char := [60; 62; 34; 39]%N.

Definition validate_query (query : str) : Res str :=
  if negb (truthy query) || negb (truthy (strip query)) then
    Raise (Exn ValidationError (py "Query cannot be empty"))
  else
    let query := strip query in
    if max_query_length settings <? length query then
      Raise (Exn ValidationError
               (py "Query too long. Maximum "
                  ++ str_of_nat (max_query_length settings)
                  ++ py " characters allowed"))
    else
      let query := re_sub_class harmful_chars query in
      Ok (take 1000 query).

Section Validators.

(** [urllib.parse.urlparse]: a library function, which can raise (a
    [ValueError] on a malformed bracketed host, for one). *)
Variable urlparse : str -> Res ParseResult.

Definition validate_url (url : str) : Res bool :=
  try_except_pure
    match urlparse url with
    | Raise e => Raise e
    | Ok parsed =>
        if negb (truthy (scheme parsed)) || negb (truthy (netloc parsed)) then
          Raise (Exn ValidationError (py "Invalid URL: " ++ url))
        else if negb (bool_decide (scheme parsed ∈ [py "http"; py "https"])) then
          Raise (Exn ValidationError
                   (py "Unsupported URL scheme: " ++ scheme parsed))
        else Ok true
    end
    (fun e =>
       Raise (Exn ValidationError
                (py "Error validating URL '" ++ url ++ py "': " ++ exc_str e))).

(** The [for url in urls] loop of [validate_urls], with [valid_urls] as
    it stands when the loop reaches [urls]. *)
Fixpoint validate_urls_loop (urls valid_urls : list str) : Res (list str) :=
  match urls with
  | [] => Ok valid_urls
  | url :: rest =>
      match validate_url url with
      | Raise e => Raise e
      | Ok b =>
          validate_urls_loop rest
            (if b then valid_urls ++ [url] else valid_urls)
      end
  end.

Definition validate_urls (urls : list str) : Res (list str) :=
  if negb (truthy urls) then
    Raise (Exn ValidationError (py "At least one URL must be provided"))
  else
    match validate_urls_loop urls [] with
    | Raise e => Raise e
    | Ok valid_urls =>
        if max_urls_per_request settings <? length valid_urls then
          Raise (Exn ValidationError
                   (py "Exceeded maximum allowed URLs: "
                      ++ str_of_nat (max_urls_per_request settings)))
        else if negb (truthy valid_urls) then
          Raise (Exn ValidationError (py "No valid URLs provided"))
        else Ok valid_urls
    end.

End Validators.

(** A reference [urlparse] for plain URLs, used to run the validators in
    the examples: the scheme is the lower-cased text before the first [:]
    when it starts with a letter and has only scheme characters, the host
    is what follows [//] up to the next [/], [?] or [#]. *)
Definition is_alpha (c : char) : bool :=
  (((65 <=? c) && (c <=? 90)) || ((97 <=? c) && (c <=? 122)))%N.
Definition is_scheme_char (c : char) : bool :=
  (is_alpha c || ((48 <=? c) && (c <=? 57))
   || (c =? 43) || (c =? 45) || (c =? 46))%N.
Definition lower (c : char) : char :=
  (if (65 <=? c) && (c <=? 90) then c + 32 else c)%N.

Fixpoint split_at_colon (s : str) : option (str * str) :=
  match s with
  | [] => None
  | c :: s' =>
      if (c =? 58)%N then Some ([], s')
      else match split_at_colon s' with
           | Some (a, b) => Some (c :: a, b)
           | None => None
           end
  end.

Fixpoint take_netloc (s : str) : str :=
  match s with
  | [] => []
  | c :: s' =>
      if ((c =? 47) || (c =? 63) || (c =? 35))%N then [] else c :: take_netloc s'
  end.

Definition urlparse_plain (url : str) : Res ParseResult :=
  let '(sch, rest) :=
    match split_at_colon url with
    | Some (c :: a, b) =>
        if is_alpha c && forallb is_scheme_char a
        then (lower <$> (c :: a), b) else ([], url)
    | _ => ([], url)
    end in
  match rest with
  | 47%N :: 47%N :: r => Ok {| scheme := sch; netloc := take_netloc r |}
  | _ => Ok {| scheme := sch; netloc := [] |}
  end.

(** ** The world of the service ([services/rag_service.py])

    Objects the service creates are named by a handle; a constructor call
    that succeeds yields a handle never handed out before. *)

Abbreviation Handle := nat (only parsing).

(** A LangChain [Document]: its text and the URL it was loaded from.  The
    chunks of the splitter are documents as well. *)
Record Document : Type := { page_content : str; source : str }.

#[global] Instance Document_eq_dec : EqDecision Document.
Proof. solve_decision. Defined.

(** The arguments [process_urls] gives [RecursiveCharacterTextSplitter]. *)
Record SplitterConfig : Type := {
  separators : list str;
  splitter_chunk_size : nat;
  splitter_chunk_overlap : nat
}.

#[global] Instance SplitterConfig_eq_dec : EqDecision SplitterConfig.
Proof. solve_decision. Defined.

Inductive Level : Type := INFO | ERROR.

#[global] Instance Level_eq_dec : EqDecision Level.
Proof. solve_decision. Defined.

Inductive Component : Type := ChatGroq | HuggingFaceEmbeddings | Chroma.

#[global] Instance Component_eq_dec : EqDecision Component.
Proof. solve_decision. Defined.

(** What a run does, in the order it does it: log records, the status
    messages the generator yields, the calls of the two in-process steps
    and the calls to the outside with their results. *)
Inductive Event : Type :=
| EvLog (lvl : Level) (msg : str)
| EvYield (msg : str)
| EvValidateUrls (urls : list str) (r : Res (list str))
| EvInitialize
| EvNew (c : Component) (r : Res Handle)
| EvResetCollection (r : Res unit)
| EvLoad (urls : list str) (r : Res (list Document))
| EvSplit (cfg : SplitterConfig) (docs : list Document) (r : Res (list Document))
| EvUuid4 (u : str)
| EvAddDocuments (chunks : list Document) (ids : list str) (r : Res unit)
| EvFromLlm (llm_handle store_handle : Handle) (r : Res unit)
| EvInvoke (question : str) (r : Res (gmap str str)).

#[global] Instance Event_eq_dec : EqDecision Event.
Proof. solve_decision. Defined.

(** The fields of a [RAGService] instance. *)
Record RAGService : Type := {
  _llm : option Handle;
  _vector_store : option Handle;
  _embeddings : option Handle;
  _initialized : bool
}.

(** [RAGService.__init__] *)
Definition RAGService_init : RAGService :=
  {| _llm := None; _vector_store := None; _embeddings := None;
     _initialized := false |}.

(** The service instance, the persisted Chroma collection (id and chunk,
    in insertion order), the next free handle and the state [X] of the
    systems outside. *)
Record State (X : Type) : Type := {
  self : RAGService;
  collection : list (str * Document);
  next_handle : Handle;
  outside : X
}.
Arguments self {X} _.
Arguments collection {X} _.
Arguments next_handle {X} _.
Arguments outside {X} _.

Definition set_self {X} (svc : RAGService) (s : State X) : State X :=
  {| self := svc; collection := collection s;
     next_handle := next_handle s; outside := outside s |}.
Definition set_collection {X} (c : list (str * Document)) (s : State X) : State X :=
  {| self := self s; collection := c;
     next_handle := next_handle s; outside := outside s |}.
Definition set_next_handle {X} (h : Handle) (s : State X) : State X :=
  {| self := self s; collection := collection s;
     next_handle := h; outside := outside s |}.
Definition set_outside {X} (x : X) (s : State X) : State X :=
  {| self := self s; collection := collection s;
     next_handle := next_handle s; outside := x |}.

(** The systems outside the repository.  Each call reads and advances the
    outside state and either returns or raises. *)
Record Externals (X : Type) : Type := {
  urlparse : str -> Res ParseResult;
  ChatGroq_new : X -> X * Res unit;
  HuggingFaceEmbeddings_new : X -> X * Res unit;
  Chroma_new : X -> X * Res unit;
  Chroma_reset_collection : X -> X * Res unit;
  Chroma_add_documents : list Document -> list str -> X -> X * Res unit;
  UnstructuredURLLoader_load : list str -> X -> X * Res (list Document);
  split_documents : SplitterConfig -> list Document -> Res (list Document);
  uuid4 : X -> X * str;
  RetrievalQAWithSourcesChain_from_llm : X -> X * Res unit;
  chain_invoke : str -> list (str * Document) -> X -> X * Res (gmap str str)
}.
Arguments urlparse {X} _.
Arguments ChatGroq_new {X} _.
Arguments HuggingFaceEmbeddings_new {X} _.
Arguments Chroma_new {X} _.
Arguments Chroma_reset_collection {X} _.
Arguments Chroma_add_documents {X} _.
Arguments UnstructuredURLLoader_load {X} _.
Arguments split_documents {X} _.
Arguments uuid4 {X} _.
Arguments RetrievalQAWithSourcesChain_from_llm {X} _.
Arguments chain_invoke {X} _.

(** The status messages of [process_urls]; each starts with an emoji. *)
Definition msg_initializing : str :=
  [0x1F527]%N ++ py " Initializing components...".
Definition msg_resetting : str :=
  [0x1F504]%N ++ py " Resetting vector store...".
Definition msg_loading : str :=
  [0x1F4E5]%N ++ py " Loading data from URLs...".
Definition msg_splitting : str :=
  [0x2702; 0xFE0F]%N ++ py " Splitting text into chunks...".
Definition msg_adding : str :=
  [0x1F5C3; 0xFE0F]%N ++ py " Adding chunks to vector database...".
Definition msg_success : str :=
  [0x2705]%N ++ py " Successfully processed all URLs!".

Section Service.

Context {X : Type} (ext : Externals X).

(** *** The monad of the service: state, trace and exceptions *)

Definition M (A : Type) : Type := State X -> State X * list Event * Res A.

Definition ret {A} (a : A) : M A := fun s => (s, [], Ok a).

Definition bind {A B} (m : M A) (k : A -> M B) : M B := fun s =>
  match m s with
  | (s1, ev1, Ok a) =>
      match k a s1 with
      | (s2, ev2, r) => (s2, ev1 ++ ev2, r)
      end
  | (s1, ev1, Raise e) => (s1, ev1, Raise e)
  end.

Definition raise {A} (e : exn) : M A := fun s => (s, [], Raise e).

(** [try: body except Exception as e: handler(e)] *)
Definition try_except {A} (body : M A) (handler : exn -> M A) : M A := fun s =>
  match body s with
  | (s1, ev1, Ok a) => (s1, ev1, Ok a)
  | (s1, ev1, Raise e) =>
      match handler e s1 with
      | (s2, ev2, r) => (s2, ev1 ++ ev2, r)
      end
  end.

Definition emit (ev : Event) : M unit := fun s => (s, [ev], Ok tt).

Definition get_self : M RAGService := fun s => (s, [], Ok (self s)).

Definition put_self (svc : RAGService) : M unit := fun s =>
  (set_self svc s, [], Ok tt).

Definition get_collection : M (list (str * Document)) := fun s =>
  (s, [], Ok (collection s)).

Definition put_collection (c : list (str * Document)) : M unit := fun s =>
  (set_collection c s, [], Ok tt).

(** A call to the outside: the oracle advances the outside state. *)
Definition call_outside {A} (f : X -> X * A) : M A := fun s =>
  match f (outside s) with
  | (x', a) => (set_outside x' s, [], Ok a)
  end.

Definition fresh_handle : M Handle := fun s =>
  (set_next_handle (S (next_handle s)) s, [], Ok (next_handle s)).

Definition of_res {A} (r : Res A) : M A := fun s => (s, [], r).

End Service.

Arguments M X A : clear implicits.
Arguments ret {X A} a.
Arguments raise {X A} e.
Arguments emit {X} ev.
Arguments get_self {X}.
Arguments put_self {X} svc.
Arguments get_collection {X}.
Arguments put_collection {X} c.
Arguments call_outside {X A} f.
Arguments fresh_handle {X}.
Arguments of_res {X A} r.
Arguments bind {X A B} m k.
Arguments try_except {X A} body handler.

Declare Scope service_scope.
Delimit Scope service_scope with service.
Notation "x <- m ;; k" := (bind m (fun x => k))
  (at level 100, m at next level, right associativity) : service_scope.
Notation "m ;; k" := (bind m (fun _ => k))
  (at level 100, right associativity) : service_scope.
Open Scope service_scope.

Section RAGService.

Context {X : Type} (ext : Externals X).

(** *** Logging, yielding and the calls to the outside

    [logger] lives in [utils/logger.py]; a call appends a record to the
    trace. *)

Definition logger_info (msg : str) : M X unit := emit (EvLog INFO msg).
Definition logger_error (msg : str) : M X unit := emit (EvLog ERROR msg).

(** [yield msg] of the generator [process_urls]. *)
Definition yield (msg : str) : M X unit := emit (EvYield msg).

(** A constructor call [ChatGroq(...)], [HuggingFaceEmbeddings(...)] or
    [Chroma(...)]: a new object on success. *)
Definition new_object (c : Component) (ctor : X -> X * Res unit) : M X Handle :=
  r <- call_outside ctor ;;
  match r with
  | Ok _ => h <- fresh_handle ;; emit (EvNew c (Ok h)) ;; ret h
  | Raise e => emit (EvNew c (Raise e)) ;; raise e
  end.

(** [vector_store.reset_collection()]: Chroma deletes the collection and
    creates it again, empty. *)
Definition reset_collection (vs : Handle) : M X unit :=
  r <- call_outside (Chroma_reset_collection ext) ;;
  emit (EvResetCollection r) ;;
  match r with
  | Ok _ => put_collection []
  | Raise e => raise e
  end.

(** [vector_store.add_documents(chunks, ids=uuids)]: on success the
    chunks are in the collection under their ids. *)
Definition add_documents (vs : Handle) (chunks : list Document)
    (ids : list str) : M X unit :=
  r <- call_outside (Chroma_add_documents ext chunks ids) ;;
  emit (EvAddDocuments chunks ids r) ;;
  match r with
  | Ok _ => c <- get_collection ;; put_collection (c ++ zip ids chunks)
  | Raise e => raise e
  end.

(** [UnstructuredURLLoader(urls=valid_urls).load()] *)
Definition load (urls : list str) : M X (list Document) :=
  r <- call_outside (UnstructuredURLLoader_load ext urls) ;;
  emit (EvLoad urls r) ;;
  of_res r.

(** [RecursiveCharacterTextSplitter(...).split_documents(documents)] *)
Definition split (cfg : SplitterConfig) (documents : list Document)
    : M X (list Document) :=
  let r := split_documents ext cfg documents in
  emit (EvSplit cfg documents r) ;;
  of_res r.

(** [str(uuid4())] *)
Definition new_uuid : M X str :=
  u <- call_outside (uuid4 ext) ;;
  emit (EvUuid4 u) ;;
  ret u.

(** [[str(uuid4()) for _ in range(n)]] *)
Fixpoint new_uuids (n : nat) : M X (list str) :=
  match n with
  | 0 => ret []
  | S n' => u <- new_uuid ;; us <- new_uuids n' ;; ret (u :: us)
  end.

(** [RetrievalQAWithSourcesChain.from_llm(llm=..., retriever=...)] *)
Definition from_llm (l vs : Handle) : M X unit :=
  r <- call_outside (RetrievalQAWithSourcesChain_from_llm ext) ;;
  emit (EvFromLlm l vs r) ;;
  of_res r.

(** [chain.invoke({"question": q}, return_only_outputs=True)]: the
    retriever reads the collection. *)
Definition invoke (question : str) : M X (gmap str str) :=
  c <- get_collection ;;
  r <- call_outside (chain_invoke ext question c) ;;
  emit (EvInvoke question r) ;;
  of_res r.

(** *** The three lazily initialised properties *)

Definition set_llm (h : option Handle) : M X unit :=
  svc <- get_self ;;
  put_self {| _llm := h; _vector_store := _vector_store svc;
              _embeddings := _embeddings svc;
              _initialized := _initialized svc |}.

Definition set_vector_store (h : option Handle) : M X unit :=
  svc <- get_self ;;
  put_self {| _llm := _llm svc; _vector_store := h;
              _embeddings := _embeddings svc;
              _initialized := _initialized svc |}.

Definition set_embeddings (h : option Handle) : M X unit :=
  svc <- get_self ;;
  put_self {| _llm := _llm svc; _vector_store := _vector_store svc;
              _embeddings := h;
              _initialized := _initialized svc |}.

Definition set_initialized (b : bool) : M X unit :=
  svc <- get_self ;;
  put_self {| _llm := _llm svc; _vector_store := _vector_store svc;
              _embeddings := _embeddings svc;
              _initialized := b |}.

(** [RAGService.llm] *)
Definition llm : M X Handle :=
  svc <- get_self ;;
  match _llm svc with
  | Some h => ret h
  | None =>
      try_except
        (h <- new_object ChatGroq (ChatGroq_new ext) ;;
         set_llm (Some h) ;;
         logger_info (py "Initialized LLM with model: " ++ groq_model settings) ;;
         ret h)
        (fun e =>
           logger_error (py "Failed to initialize LLM: " ++ exc_str e) ;;
           raise (Exn LLMError (py "LLM initialization failed: " ++ exc_str e)))
  end.

(** [RAGService.embeddings] *)
Definition embeddings : M X Handle :=
  svc <- get_self ;;
  match _embeddings svc with
  | Some h => ret h
  | None =>
      try_except
        (h <- new_object HuggingFaceEmbeddings (HuggingFaceEmbeddings_new ext) ;;
         set_embeddings (Some h) ;;
         logger_info (py "Initialized embeddings with model: "
                        ++ embedding_model settings) ;;
         ret h)
        (fun e =>
           logger_error (py "Failed to initialize embeddings: " ++ exc_str e) ;;
           raise (Exn VectorStoreError
                    (py "Embeddings initialization failed: " ++ exc_str e)))
  end.

(** [RAGService.vector_store]; the constructor's argument
    [embedding_function=self.embeddings] is evaluated inside the [try]. *)
Definition vector_store : M X Handle :=
  svc <- get_self ;;
  match _vector_store svc with
  | Some h => ret h
  | None =>
      try_except
        (_ <- embeddings ;;
         h <- new_object Chroma (Chroma_new ext) ;;
         set_vector_store (Some h) ;;
         logger_info (py "Initialized vector store at: "
                        ++ vectorstore_dir settings) ;;
         ret h)
        (fun e =>
           logger_error (py "Failed to initialize vector store: " ++ exc_str e) ;;
           raise (Exn VectorStoreError
                    (py "Vector store initialization failed: " ++ exc_str e)))
  end.

(** [RAGService.initialize] *)
Definition initialize : M X unit :=
  emit EvInitialize ;;
  svc <- get_self ;;
  if _initialized svc then ret tt
  else
    logger_info (py "Initializing RAG service components...") ;;
    _ <- llm ;;
    _ <- embeddings ;;
    _ <- vector_store ;;
    set_initialized true ;;
    logger_info (py "RAG service initialization completed").

(** [RAGService.error_handler], a context manager: [body] is the block
    of the [with] statement.  The elapsed time the completion record
    reports is read from the clock and left out of the message. *)
Definition error_handler {A} (operation : str) (body : M X A) : M X A :=
  try_except
    (logger_info (py "Starting operation: " ++ operation) ;;
     a <- body ;;
     logger_info (py "Completed operation: " ++ operation) ;;
     ret a)
    (fun e =>
       logger_error (py "Operation failed: " ++ operation
                       ++ py " - " ++ exc_str e) ;;
       raise e).

(** *** [RAGService.process_urls] *)

Definition splitter_config : SplitterConfig :=
  {| separators := [[10; 10]; [10]; [46]; [32]]%N;
     splitter_chunk_size := chunk_size settings;
     splitter_chunk_overlap := chunk_overlap settings |}.

(** The block of the [try] statement.  The generator is run to its end,
    as the [for] loop of the front end does; the yielded messages are in
    the trace. *)
Definition process_urls_body (urls : list str) : M X unit :=
  emit (EvValidateUrls urls (validate_urls (urlparse ext) urls)) ;;
  valid_urls <- of_res (validate_urls (urlparse ext) urls) ;;
  logger_info (py "Processing " ++ str_of_nat (length valid_urls) ++ py " URLs") ;;
  yield msg_initializing ;;
  initialize ;;
  yield msg_resetting ;;
  error_handler (py "reset_collection")
    (vs <- vector_store ;; reset_collection vs) ;;
  yield msg_loading ;;
  documents <- error_handler (py "load_urls") (load valid_urls) ;;
  (if negb (truthy documents) then
     raise (Exn URLProcessingError
              (py "No documents were loaded from the provided URLs"))
   else ret tt) ;;
  logger_info (py "Loaded " ++ str_of_nat (length documents) ++ py " documents") ;;
  yield msg_splitting ;;
  chunks <- error_handler (py "split_documents")
              (split splitter_config documents) ;;
  logger_info (py "Created " ++ str_of_nat (length chunks) ++ py " text chunks") ;;
  yield msg_adding ;;
  error_handler (py "add_to_vectorstore")
    (uuids <- new_uuids (length chunks) ;;
     vs <- vector_store ;;
     add_documents vs chunks uuids) ;;
  yield msg_success ;;
  logger_info (py "URL processing completed successfully").

(** The [except Exception as e] clause of [process_urls]. *)
Definition process_urls_handler (e : exn) : M X unit :=
  let error_msg := py "URL processing failed: " ++ exc_str e in
  logger_error error_msg ;;
  if isinstance e [URLProcessingError; VectorStoreError] then raise e
  else raise (Exn URLProcessingError error_msg).

Definition process_urls (urls : list str) : M X unit :=
  try_except (process_urls_body urls) process_urls_handler.

(** *** [RAGService.generate_answer] *)

Definition generate_answer_body (query : str) : M X (str * str) :=
  clean_query <- of_res (validate_query query) ;;
  logger_info (py "Processing query: " ++ take 100 clean_query ++ py "...") ;;
  svc <- get_self ;;
  (if negb (_initialized svc) || bool_decide (_vector_store svc = None) then
     raise (Exn VectorStoreError
              (py "Vector store not initialized. Please process URLs first."))
   else ret tt) ;;
  error_handler (py "generate_answer")
    (l <- llm ;;
     vs <- vector_store ;;
     from_llm l vs ;;
     result <- invoke clean_query ;;
     let answer := default (py "No answer generated") (result !! py "answer") in
     let sources := default (py "No sources found") (result !! py "sources") in
     logger_info (py "Answer generated successfully") ;;
     ret (answer, sources)).

(** The [except Exception as e] clause of [generate_answer]. *)
Definition generate_answer_handler (e : exn) : M X (str * str) :=
  let error_msg := py "Answer generation failed: " ++ exc_str e in
  logger_error error_msg ;;
  if isinstance e [LLMError; VectorStoreError] then raise e
  else raise (Exn LLMError error_msg).

Definition generate_answer (query : str) : M X (str * str) :=
  try_except (generate_answer_body query) generate_answer_handler.

End RAGService.

(** ** A test double for the outside

    Every constructor and every Chroma call succeeds; the loader answers
    [loaded urls]; the splitter hands the documents back as chunks; the
    n-th [uuid4] is ["uuid-n"]; the chain answers [chain_result].  The
    outside state counts the UUIDs drawn. *)

Definition stub (loaded : list str -> Res (list Document))
    (chain_result : Res (gmap str str)) : Externals nat := {|
  urlparse := urlparse_plain;
  ChatGroq_new := fun x => (x, Ok tt);
  HuggingFaceEmbeddings_new := fun x => (x, Ok tt);
  Chroma_new := fun x => (x, Ok tt);
  Chroma_reset_collection := fun x => (x, Ok tt);
  Chroma_add_documents := fun _ _ x => (x, Ok tt);
  UnstructuredURLLoader_load := fun urls x => (x, loaded urls);
  split_documents := fun _ docs => Ok docs;
  uuid4 := fun x => (S x, py "uuid-" ++ str_of_nat x);
  RetrievalQAWithSourcesChain_from_llm := fun x => (x, Ok tt);
  chain_invoke := fun _ _ x => (x, chain_result)
|}.

(** One document per URL. *)
Definition one_page_each (urls : list str) : Res (list Document) :=
  Ok ((fun u => {| page_content := py "Mortgage rates rose. Prices fell.";
                   source := u |}) <$> urls).

(** A service that has just been constructed, over an empty collection. *)
Definition fresh_state : State nat :=
  {| self := RAGService_init; collection := []; next_handle := 0; outside := 0 |}.

(** The same service over a collection that holds a chunk of an earlier
    run. *)
Definition earlier_chunk : str * Document :=
  (py "uuid-old", {| page_content := py "An old chunk."; source := py "https://old.example" |}).
Definition used_state : State nat :=
  {| self := RAGService_init; collection := [earlier_chunk];
     next_handle := 0; outside := 0 |}.
Example validate_urls_two :
  validate_urls urlparse_plain [py "https://example.com"; py "http://test.com"]
  = Ok [py "https://example.com"; py "http://test.com"].
Proof. vm_compute. reflexivity. Qed.

Example validate_url_ftp :
  validate_url urlparse_plain (py "ftp://example.com")
  = Raise (Exn ValidationError
             (py "Error validating URL 'ftp://example.com': Unsupported URL scheme: ftp")).
Proof. vm_compute. reflexivity. Qed.

Example validate_query_plain :
  validate_query (py "  Find properties in New York ")
  = Ok (py "Find properties in New York").
Proof. vm_compute. reflexivity. Qed.

Example validate_query_too_long_message :
  validate_query (replicate 501 97%N)
  = Raise (Exn ValidationError
             (py "Query too long. Maximum 500 characters allowed")).
Proof. vm_compute. reflexivity. Qed.

(** * Properties of the validators *)

(** ** [strip] *)

Lemma lstrip_suffix (s : str) : lstrip s `suffix_of` s.
Proof.
  induction s as [|c s IH]; simpl; [done|].
  destruct (isspace c); [by apply suffix_cons_r | done].
Qed.

Lemma lstrip_head (s : str) c : head (lstrip s) = Some c -> isspace c = false.
Proof.
  induction s as [|d s IH]; simpl; [done|].
  destruct (isspace d) eqn:Hd; [done|].
  simpl. by intros [= <-].
Qed.

Lemma rstrip_prefix (s : str) : rstrip s `prefix_of` s.
Proof.
  unfold rstrip. apply prefix_suffix_reverse.
  rewrite reverse_involutive. apply lstrip_suffix.
Qed.

Lemma rstrip_last (s : str) c : last (rstrip s) = Some c -> isspace c = false.
Proof. unfold rstrip. rewrite last_reverse. apply lstrip_head. Qed.

Lemma prefix_head {A} (l1 l2 : list A) x :
  l1 `prefix_of` l2 -> head l1 = Some x -> head l2 = Some x.
Proof. intros [k ->]. by destruct l1. Qed.

(** A string neither starts nor ends with whitespace. *)
Definition no_outer_whitespace (s : str) : Prop :=
  (forall c, head s = Some c -> isspace c = false)
  /\ (forall c, last s = Some c -> isspace c = false).

Lemma strip_no_outer_whitespace (s : str) : no_outer_whitespace (strip s).
Proof.
  split; intros c Hc.
  - apply (lstrip_head s). by apply (prefix_head (strip s)); [apply rstrip_prefix|].
  - by apply (rstrip_last (lstrip s)).
Qed.

Lemma strip_length (s : str) : length (strip s) <= length s.
Proof.
  etrans; [apply prefix_length, rstrip_prefix|].
  apply suffix_length, lstrip_suffix.
Qed.

Lemma truthy_false {A} (l : list A) : truthy l = false <-> l = [].
Proof. by destruct l. Qed.

Lemma truthy_true {A} (l : list A) : truthy l = true <-> l <> [].
Proof. by destruct l. Qed.

(** ** [validate_query] *)

(** What every accepted query went through. *)
Lemma validate_query_Ok (query q : str) :
  validate_query query = Ok q ->
  strip query <> []
  /\ length (strip query) <= 500
  /\ q = take 1000 (re_sub_class harmful_chars (strip query)).
Proof.
  unfold validate_query.
  destruct (truthy query); simpl; [|done].
  destruct (truthy (strip query)) eqn:Hs; simpl; [|done].
  destruct (_ <? _) eqn:Hlen; [done|].
  intros [= <-]. apply truthy_true in Hs.
  apply Nat.ltb_ge in Hlen. done.
Qed.

Lemma re_sub_class_length class (s : str) :
  length (re_sub_class class s) <= length s.
Proof. apply length_filter. Qed.

Lemma re_sub_class_clean class (s : str) c :
  c ∈ class -> c ∉ re_sub_class class s.
Proof.
  intros Hc Hin. apply list_elem_of_filter in Hin as [Hn _]. done.
Qed.

Lemma re_sub_class_id class (s : str) :
  (forall c, c ∈ class -> c ∉ s) -> re_sub_class class s = s.
Proof.
  intros H. unfold re_sub_class. induction s as [|d s IH]; [done|].
  rewrite filter_cons. destruct (decide (d ∉ class)) as [Hd|Hd].
  - f_equal. apply IH. intros c Hc Hin. apply (H c Hc). by right.
  - exfalso. apply Hd. intros Hin. apply (H d Hin). by left.
Qed.

(** C8, as amended.  For every query [validate_query] accepts, the
    returned string is the stripped input with every less-than,
    greater-than, double-quote and single-quote character deleted: it has
    at most 500 characters and none of the four, and the final slice
    [[:1000]] leaves it as it is.  The stripped input is non-empty and has
    no whitespace at either end, and so has the returned string whenever
    the stripped input holds none of the four characters. *)
Theorem validate_query_accepted (query q : str) :
  validate_query query = Ok q ->
  q = re_sub_class harmful_chars (strip query)
  /\ take 1000 (re_sub_class harmful_chars (strip query))
     = re_sub_class harmful_chars (strip query)
  /\ length q <= 500
  /\ (forall c, c ∈ harmful_chars -> c ∉ q)
  /\ strip query <> [] /\ no_outer_whitespace (strip query)
  /\ ((forall c, c ∈ harmful_chars -> c ∉ strip query) ->
      q <> [] /\ no_outer_whitespace q).
Proof.
  intros (Hne & Hlen & ->)%validate_query_Ok.
  pose proof (re_sub_class_length harmful_chars (strip query)) as Hsub.
  assert (Htake : take 1000 (re_sub_class harmful_chars (strip query))
                  = re_sub_class harmful_chars (strip query)).
  { apply take_ge. lia. }
  rewrite Htake. repeat split; try done.
  - lia.
  - intros c Hc. by apply re_sub_class_clean.
  - apply strip_no_outer_whitespace.
  - apply strip_no_outer_whitespace.
  - by rewrite re_sub_class_id.
  - rewrite re_sub_class_id by done. apply strip_no_outer_whitespace.
  - rewrite re_sub_class_id by done. apply strip_no_outer_whitespace.
Qed.

Lemma validate_query_accepted_witness :
  validate_query (py "  What is <b>rent</b>? ") = Ok (py "What is brent/b?")
  /\ length (py "What is brent/b?") <= 500.
Proof.
  assert (H : validate_query (py "  What is <b>rent</b>? ")
              = Ok (py "What is brent/b?")) by (vm_compute; reflexivity).
  split; [exact H|].
  exact (proj1 (proj2 (proj2 (validate_query_accepted _ _ H)))).
Defined.

(** C8, as stated, fails: a query of one less-than sign is accepted and
    the empty string comes back; a query whose first word is a deleted
    character comes back with a leading space. *)
Lemma validate_query_returns_empty_or_padded :
  validate_query (py "<") = Ok []
  /\ validate_query (py "< a") = Ok (py " a")
  /\ ~ no_outer_whitespace (py " a").
Proof.
  split; [vm_compute; reflexivity|].
  split; [vm_compute; reflexivity|].
  intros [H _]. specialize (H 32%N eq_refl). vm_compute in H. discriminate.
Qed.

(** ** [validate_url] and [validate_urls] *)

Section ValidatorFacts.

Variable urlparse : str -> Res ParseResult.

(** The URL has no scheme or no host: [urlparse] finds none (or rejects
    the URL altogether). *)
Definition lacks_scheme_or_host (u : str) : Prop :=
  forall p, urlparse u = Ok p -> scheme p = [] \/ netloc p = [].

(** The URL has a scheme other than [http] and [https]. *)
Definition other_scheme (u : str) : Prop :=
  exists p, urlparse u = Ok p
            /\ scheme p <> py "http" /\ scheme p <> py "https".

(** [validate_url] has three outcomes, all decided by [urlparse]. *)
Lemma validate_url_cases (u : str) :
  (validate_url urlparse u = Ok true
   /\ ~ lacks_scheme_or_host u /\ ~ other_scheme u)
  \/ ((lacks_scheme_or_host u \/ other_scheme u)
      /\ exists msg, validate_url urlparse u = Raise (Exn ValidationError msg)).
Proof.
  unfold validate_url, lacks_scheme_or_host, other_scheme.
  destruct (urlparse u) as [p|e] eqn:Hp; simpl.
  - destruct (truthy (scheme p)) eqn:Hs; simpl.
    + destruct (truthy (netloc p)) eqn:Hn; simpl.
      * apply truthy_true in Hs, Hn.
        case_bool_decide as Hin; simpl.
        -- left. split; [done|]. split.
           ++ intros H. destruct (H p eq_refl); done.
           ++ intros (p' & [= <-] & H1 & H2).
              apply elem_of_cons in Hin as [?|Hin]; [done|].
              apply elem_of_cons in Hin as [?|Hin]; [done|].
              by apply elem_of_nil in Hin.
        -- right. split; [|eauto]. right. exists p.
           split; [done|]. split; intros Heq; apply Hin; rewrite Heq.
           ++ by left.
           ++ right. by left.
      * right. split; [|eauto]. left. intros p' [= <-].
        right. by apply truthy_false.
    + right. split; [|eauto]. left. intros p' [= <-].
      left. by apply truthy_false.
  - right. split; [|eauto]. left. intros p' [=].
Qed.

Lemma validate_url_never_False (u : str) b :
  validate_url urlparse u = Ok b -> b = true.
Proof.
  destruct (validate_url_cases u) as [[-> _]|[_ [msg ->]]]; [|done].
  by intros [= <-].
Qed.

Lemma validate_url_raises_ValidationError (u : str) e :
  validate_url urlparse u = Raise e -> exc_class e = ValidationError.
Proof.
  destruct (validate_url_cases u) as [[-> _]|[_ [msg ->]]]; [done|].
  by intros [= <-].
Qed.

(** The loop appends every URL it passes. *)
Lemma validate_urls_loop_Ok (urls acc valid : list str) :
  validate_urls_loop urlparse urls acc = Ok valid ->
  valid = acc ++ urls
  /\ forall u, u ∈ urls -> ~ lacks_scheme_or_host u /\ ~ other_scheme u.
Proof.
  revert acc. induction urls as [|u urls IH]; intros acc; simpl.
  - intros [= <-]. rewrite app_nil_r. split; [done|].
    intros u Hu. by apply elem_of_nil in Hu.
  - destruct (validate_url_cases u) as [[-> Hu]|[_ [msg ->]]]; [|done].
    intros [-> Hall]%IH. rewrite <- app_assoc. split; [done|].
    intros v [->|Hv]%elem_of_cons; auto.
Qed.

Lemma validate_urls_loop_Raise (urls acc : list str) e :
  validate_urls_loop urlparse urls acc = Raise e ->
  exc_class e = ValidationError
  /\ exists u, u ∈ urls /\ (lacks_scheme_or_host u \/ other_scheme u).
Proof.
  revert acc. induction urls as [|u urls IH]; intros acc; simpl; [done|].
  destruct (validate_url_cases u) as [[-> Hu]|[Hbad [msg Hmsg]]].
  - intros [Hc (v & Hv & Hbad)]%IH. split; [done|].
    exists v. split; [by right | done].
  - rewrite Hmsg. intros [= <-]. split; [done|].
    exists u. split; [by left | done].
Qed.

Lemma validate_urls_loop_all_good (urls acc : list str) :
  (forall u, u ∈ urls -> ~ lacks_scheme_or_host u /\ ~ other_scheme u) ->
  validate_urls_loop urlparse urls acc = Ok (acc ++ urls).
Proof.
  intros Hall.
  destruct (validate_urls_loop urlparse urls acc) as [valid|e] eqn:Hl.
  - by apply validate_urls_loop_Ok in Hl as [-> _].
  - apply validate_urls_loop_Raise in Hl as [_ (u & Hu & Hbad)].
    destruct (Hall u Hu) as [H1 H2]. by destruct Hbad.
Qed.

(** Every message of [validate_url] starts the same way, since its own
    [except] clause catches the two errors it raises. *)
Lemma validate_url_Raise_message (u : str) e :
  validate_url urlparse u = Raise e ->
  exists m, e = Exn ValidationError (py "Error validating URL '" ++ m).
Proof.
  unfold validate_url. destruct (urlparse u) as [p|e0]; simpl.
  - destruct (negb _ || negb _); [intros [= <-]; eauto|].
    destruct (negb _); [intros [= <-]; eauto | done].
  - intros [= <-]; eauto.
Qed.

Lemma validate_urls_loop_Raise_message (urls acc : list str) e :
  validate_urls_loop urlparse urls acc = Raise e ->
  exists m, e = Exn ValidationError (py "Error validating URL '" ++ m).
Proof.
  revert acc. induction urls as [|u urls IH]; intros acc; simpl; [done|].
  destruct (validate_url urlparse u) as [b|e0] eqn:Hu.
  - apply IH.
  - intros [= <-]. by apply validate_url_Raise_message in Hu.
Qed.

(** When a list is turned down. *)
Definition rejected (urls : list str) : Prop :=
  urls = []
  \/ (exists u, u ∈ urls /\ (lacks_scheme_or_host u \/ other_scheme u))
  \/ 10 < length urls.

(** C3.  [validate_urls] raises [ValidationError] when the list is
    empty, when an element has no scheme or no host or has a scheme
    other than [http] and [https], and when the list has more than 10
    elements; for every other list it returns the URLs. *)
Theorem validate_urls_spec (urls : list str) :
  (rejected urls ->
   exists msg, validate_urls urlparse urls = Raise (Exn ValidationError msg))
  /\ (~ rejected urls -> validate_urls urlparse urls = Ok urls).
Proof.
  unfold rejected, validate_urls. split.
  - intros Hrej. destruct urls as [|u0 urls0]; simpl truthy; cbn iota; [eauto|].
    simpl negb. cbn iota.
    destruct (validate_urls_loop urlparse (u0 :: urls0) []) as [valid|e] eqn:Hl.
    + apply validate_urls_loop_Ok in Hl as [-> Hall]. rewrite app_nil_l.
      destruct Hrej as [?|[(u & Hu & Hbad)|Hlen]]; [done| |].
      * destruct (Hall u Hu). by destruct Hbad.
      * apply Nat.ltb_lt in Hlen.
        change (max_urls_per_request settings) with 10.
        rewrite Hlen. eauto.
    + apply validate_urls_loop_Raise in Hl as [Hc _].
      destruct e as [c msg]. simpl in Hc. subst c. eauto.
  - intros Hacc.
    destruct urls as [|u0 urls0]; [exfalso; apply Hacc; by left|].
    simpl truthy. simpl negb. cbn iota.
    rewrite validate_urls_loop_all_good, app_nil_l.
    + change (max_urls_per_request settings) with 10.
      destruct (10 <? length (u0 :: urls0)) eqn:Hlen.
      * exfalso. apply Hacc. right. right. by apply Nat.ltb_lt.
      * done.
    + intros u Hu. split; intros Hbad; apply Hacc; right; left; eauto.
Qed.

Lemma validate_urls_Ok_eq (urls valid : list str) :
  validate_urls urlparse urls = Ok valid -> valid = urls.
Proof.
  unfold validate_urls.
  destruct (truthy urls); simpl; [|done].
  destruct (validate_urls_loop urlparse urls []) as [v|e] eqn:Hl; [|done].
  apply validate_urls_loop_Ok in Hl as [-> _]. rewrite app_nil_l.
  destruct (_ <? _); [done|]. destruct (negb _); [done|]. by intros [= <-].
Qed.

(** C9.  [validate_url] never returns [False]; whenever [validate_urls]
    returns, it returns its argument; and the branch that raises
    ["No valid URLs provided"] is dead: when the loop has run over a
    non-empty list without raising, [valid_urls] is not empty, and no
    call raises that message. *)
Theorem validate_urls_returns_its_argument (urls : list str) :
  (forall u b, validate_url urlparse u = Ok b -> b = true)
  /\ (forall valid, validate_urls urlparse urls = Ok valid -> valid = urls)
  /\ (forall valid, truthy urls = true ->
        validate_urls_loop urlparse urls [] = Ok valid ->
        valid = urls /\ truthy valid = true)
  /\ validate_urls urlparse urls
     <> Raise (Exn ValidationError (py "No valid URLs provided")).
Proof.
  split; [apply validate_url_never_False|].
  assert (Hloop : forall valid, truthy urls = true ->
            validate_urls_loop urlparse urls [] = Ok valid ->
            valid = urls /\ truthy valid = true).
  { intros valid Ht [-> _]%validate_urls_loop_Ok. by rewrite app_nil_l. }
  split; [|split; [exact Hloop|]].
  - intros valid. apply validate_urls_Ok_eq.
  - unfold validate_urls.
    destruct (truthy urls) eqn:Ht; simpl; [|by vm_compute].
    destruct (validate_urls_loop urlparse urls []) as [v|e] eqn:Hl.
    + destruct (Hloop v eq_refl eq_refl) as [-> Hv].
      destruct (_ <? _); [by vm_compute|]. by rewrite Hv.
    + apply validate_urls_loop_Raise_message in Hl as [m ->].
      by vm_compute.
Qed.

End ValidatorFacts.

Lemma validate_urls_spec_witness :
  (exists msg, validate_urls urlparse_plain [py "ftp://example.com"]
               = Raise (Exn ValidationError msg))
  /\ validate_urls urlparse_plain [py "https://example.com"]
     = Ok [py "https://example.com"].
Proof.
  split.
  - apply (proj1 (validate_urls_spec urlparse_plain [py "ftp://example.com"])).
    right; left. exists (py "ftp://example.com"). split; [by left|].
    right. eexists. split; [vm_compute; reflexivity|].
    split; vm_compute; discriminate.
  - apply (proj2 (validate_urls_spec urlparse_plain [py "https://example.com"])).
    intros [H|[(u & Hu & Hbad)|Hlen]].
    + discriminate.
    + apply list_elem_of_singleton in Hu as ->.
      destruct Hbad as [Hbad|(p & Hp & _ & Hs)].
      * destruct (Hbad _ eq_refl) as [H|H]; vm_compute in H; discriminate.
      * vm_compute in Hp. injection Hp as <-. apply Hs. vm_compute. reflexivity.
    + simpl in Hlen. lia.
Defined.

Lemma validate_urls_returns_its_argument_witness :
  validate_urls urlparse_plain [py "https://example.com"; py "http://test.com"]
  = Ok [py "https://example.com"; py "http://test.com"]
  /\ [py "https://example.com"; py "http://test.com"]
     = [py "https://example.com"; py "http://test.com"].
Proof.
  assert (H : validate_urls urlparse_plain
                [py "https://example.com"; py "http://test.com"]
              = Ok [py "https://example.com"; py "http://test.com"])
    by (vm_compute; reflexivity).
  split; [exact H|].
  exact (proj1 (proj2 (validate_urls_returns_its_argument urlparse_plain _)) _ H).
Defined.

(** * Properties of the service *)

(** ** Running the monad *)

Section Runs.

Context {X : Type} (ext : Externals X).

Lemma bind_inv {A B} (m : M X A) (k : A -> M X B) s s' evs r :
  bind m k s = (s', evs, r) ->
  exists s1 ev1 r1, m s = (s1, ev1, r1) /\
    match r1 with
    | Raise e => s' = s1 /\ evs = ev1 /\ r = Raise e
    | Ok a => exists ev2, k a s1 = (s', ev2, r) /\ evs = ev1 ++ ev2
    end.
Proof.
  unfold bind. destruct (m s) as [[s1 ev1] [a|e]].
  - destruct (k a s1) as [[s2 ev2] r2] eqn:Hk. intros [= <- <- <-].
    exists s1, ev1, (Ok a). eauto.
  - intros [= <- <- <-]. exists s1, ev1, (Raise e). eauto.
Qed.

Lemma try_except_inv {A} (body : M X A) handler s s' evs (r : Res A) :
  try_except body handler s = (s', evs, r) ->
  exists s1 ev1 r1, body s = (s1, ev1, r1) /\
    match r1 with
    | Ok a => s' = s1 /\ evs = ev1 /\ r = Ok a
    | Raise e => exists ev2, handler e s1 = (s', ev2, r) /\ evs = ev1 ++ ev2
    end.
Proof.
  unfold try_except. destruct (body s) as [[s1 ev1] [a|e]].
  - intros [= <- <- <-]. exists s1, ev1, (Ok a). eauto.
  - destruct (handler e s1) as [[s2 ev2] r2] eqn:Hh. intros [= <- <- <-].
    exists s1, ev1, (Raise e). eauto.
Qed.

(** ** [error_handler] *)

(** The record [error_handler] writes when the block is left. *)
Definition closing_record {A} (operation : str) (r : Res A) : Event :=
  match r with
  | Ok _ => EvLog INFO (py "Completed operation: " ++ operation)
  | Raise e =>
      EvLog ERROR (py "Operation failed: " ++ operation ++ py " - " ++ exc_str e)
  end.

Lemma error_handler_run {A} (operation : str) (body : M X A) s :
  error_handler operation body s =
  match body s with
  | (s1, evs, r) =>
      (s1,
       EvLog INFO (py "Starting operation: " ++ operation)
         :: evs ++ [closing_record operation r],
       r)
  end.
Proof.
  unfold error_handler, try_except, bind, logger_info, logger_error, emit,
    ret, raise.
  destruct (body s) as [[s1 evs] [a|e]]; simpl; by rewrite ?app_nil_r.
Qed.

(** C7.  [error_handler] is transparent: whatever the block of the
    [with] statement does -- the state it leaves, the events it causes
    and its outcome [r], a value or an exception -- the block run under
    [error_handler] leaves the same state and has the same outcome [r]:
    the exception the block raised, unchanged, and no exception when the
    block raised none.  The trace gains a log record on either side. *)
Theorem error_handler_transparent {A} (operation : str) (body : M X A)
    s s1 evs (r : Res A) :
  body s = (s1, evs, r) ->
  exists opening lvl closing,
    error_handler operation body s
    = (s1, EvLog INFO opening :: evs ++ [EvLog lvl closing], r).
Proof.
  intros Hbody. rewrite error_handler_run, Hbody.
  destruct r; simpl; eauto.
Qed.

End Runs.

Lemma error_handler_transparent_witness :
  exists opening lvl closing,
    error_handler (py "load_urls")
      (raise (Exn (BuiltinException (py "ConnectionError")) (py "timed out")))
      fresh_state
    = (fresh_state, EvLog INFO opening :: [] ++ [EvLog lvl closing],
       Raise (Exn (BuiltinException (py "ConnectionError")) (py "timed out"))
         : Res unit).
Proof.
  apply (error_handler_transparent (py "load_urls")
           (raise (Exn (BuiltinException (py "ConnectionError")) (py "timed out")))
           fresh_state fresh_state []).
  reflexivity.
Defined.

(** ** Exception translation *)

Lemma isinstance_URLProcessing_or_VectorStore (e : exn) :
  isinstance e [URLProcessingError; VectorStoreError] = true
  <-> exc_class e = URLProcessingError \/ exc_class e = VectorStoreError.
Proof.
  destruct e as [c m]. unfold isinstance, issubclass. simpl.
  destruct c; simpl; repeat case_bool_decide; simpl; intuition congruence.
Qed.

Lemma isinstance_LLM_or_VectorStore (e : exn) :
  isinstance e [LLMError; VectorStoreError] = true
  <-> exc_class e = LLMError \/ exc_class e = VectorStoreError.
Proof.
  destruct e as [c m]. unfold isinstance, issubclass. simpl.
  destruct c; simpl; repeat case_bool_decide; simpl; intuition congruence.
Qed.

Section Translation.

Context {X : Type} (ext : Externals X).

Lemma process_urls_run (urls : list str) s :
  process_urls ext urls s =
  match process_urls_body ext urls s with
  | (s1, evs, Ok a) => (s1, evs, Ok a)
  | (s1, evs, Raise e) =>
      (s1, evs ++ [EvLog ERROR (py "URL processing failed: " ++ exc_str e)],
       Raise (if isinstance e [URLProcessingError; VectorStoreError] then e
              else Exn URLProcessingError
                     (py "URL processing failed: " ++ exc_str e)))
  end.
Proof.
  unfold process_urls, try_except, process_urls_handler, bind, logger_error,
    emit, raise.
  destruct (process_urls_body ext urls s) as [[s1 evs] [a|e]]; [done|].
  by destruct (isinstance e _).
Qed.

Lemma generate_answer_run (query : str) s :
  generate_answer ext query s =
  match generate_answer_body ext query s with
  | (s1, evs, Ok a) => (s1, evs, Ok a)
  | (s1, evs, Raise e) =>
      (s1, evs ++ [EvLog ERROR (py "Answer generation failed: " ++ exc_str e)],
       Raise (if isinstance e [LLMError; VectorStoreError] then e
              else Exn LLMError
                     (py "Answer generation failed: " ++ exc_str e)))
  end.
Proof.
  unfold generate_answer, try_except, generate_answer_handler, bind,
    logger_error, emit, raise.
  destruct (generate_answer_body ext query s) as [[s1 evs] [a|e]]; [done|].
  by destruct (isinstance e _).
Qed.

(** C1.  Whatever exception [e] the body of [process_urls] raises:
    when [e] is a [URLProcessingError] or a [VectorStoreError],
    [process_urls] raises [e] itself; otherwise it raises a
    [URLProcessingError] whose message is ["URL processing failed: "]
    followed by [str(e)].  In the same way [generate_answer] lets an
    [LLMError] and a [VectorStoreError] through and turns every other
    exception into an [LLMError] with the message
    ["Answer generation failed: "] followed by [str(e)].  So no other
    class of exception leaves either method. *)
Theorem exception_translation (urls : list str) (query : str) s :
  (forall s1 evs e, process_urls_body ext urls s = (s1, evs, Raise e) ->
     exists evs',
       (exc_class e = URLProcessingError \/ exc_class e = VectorStoreError ->
        process_urls ext urls s = (s1, evs', Raise e))
       /\ (exc_class e <> URLProcessingError ->
           exc_class e <> VectorStoreError ->
           process_urls ext urls s
           = (s1, evs',
              Raise (Exn URLProcessingError
                       (py "URL processing failed: " ++ exc_str e)))))
  /\ (forall s1 evs e, generate_answer_body ext query s = (s1, evs, Raise e) ->
     exists evs',
       (exc_class e = LLMError \/ exc_class e = VectorStoreError ->
        generate_answer ext query s = (s1, evs', Raise e))
       /\ (exc_class e <> LLMError -> exc_class e <> VectorStoreError ->
           generate_answer ext query s
           = (s1, evs',
              Raise (Exn LLMError
                       (py "Answer generation failed: " ++ exc_str e)))))
  /\ (forall s1 evs e, process_urls ext urls s = (s1, evs, Raise e) ->
        exc_class e = URLProcessingError \/ exc_class e = VectorStoreError)
  /\ (forall s1 evs e, generate_answer ext query s = (s1, evs, Raise e) ->
        exc_class e = LLMError \/ exc_class e = VectorStoreError).
Proof.
  repeat split.
  - intros s1 evs e Hbody. rewrite process_urls_run, Hbody.
    eexists. split.
    + intros Hc%isinstance_URLProcessing_or_VectorStore. by rewrite Hc.
    + intros H1 H2.
      destruct (isinstance e _) eqn:Hi; [|done].
      apply isinstance_URLProcessing_or_VectorStore in Hi. by destruct Hi.
  - intros s1 evs e Hbody. rewrite generate_answer_run, Hbody.
    eexists. split.
    + intros Hc%isinstance_LLM_or_VectorStore. by rewrite Hc.
    + intros H1 H2.
      destruct (isinstance e _) eqn:Hi; [|done].
      apply isinstance_LLM_or_VectorStore in Hi. by destruct Hi.
  - intros s1 evs e. rewrite process_urls_run.
    destruct (process_urls_body ext urls s) as [[s2 ev2] [a|e2]]; [done|].
    destruct (isinstance e2 [URLProcessingError; VectorStoreError]) eqn:Hi;
      intros [= <- <- <-]; [|by left].
    by apply isinstance_URLProcessing_or_VectorStore.
  - intros s1 evs e. rewrite generate_answer_run.
    destruct (generate_answer_body ext query s) as [[s2 ev2] [a|e2]]; [done|].
    destruct (isinstance e2 [LLMError; VectorStoreError]) eqn:Hi;
      intros [= <- <- <-]; [|by left].
    by apply isinstance_LLM_or_VectorStore.
Qed.

End Translation.

(** A loader that cannot reach the network. *)
Definition unreachable (urls : list str) : Res (list Document) :=
  Raise (Exn (BuiltinException (py "ConnectionError")) (py "timed out")).

Lemma exception_translation_witness :
  (process_urls (stub unreachable (Ok ∅)) [py "https://example.com"] fresh_state).2
  = Raise (Exn URLProcessingError (py "URL processing failed: timed out"))
  /\ (generate_answer (stub unreachable (Ok ∅)) (py "rates?") fresh_state).2
     = Raise (Exn VectorStoreError
                (py "Vector store not initialized. Please process URLs first.")).
Proof.
  pose proof (exception_translation (stub unreachable (Ok ∅))
                [py "https://example.com"] (py "rates?") fresh_state)
    as (Hp & Hg & _ & _).
  split.
  - assert (Hr : (process_urls_body (stub unreachable (Ok ∅))
                    [py "https://example.com"] fresh_state).2
                 = Raise (Exn (BuiltinException (py "ConnectionError"))
                            (py "timed out")))
      by (vm_compute; reflexivity).
    destruct (process_urls_body (stub unreachable (Ok ∅))
                [py "https://example.com"] fresh_state) as [[s1 evs] r] eqn:Hbody.
    simpl in Hr. subst r. destruct (Hp _ _ _ eq_refl) as (evs' & _ & Hwrap).
    rewrite Hwrap; [vm_compute; reflexivity | discriminate | discriminate].
  - assert (Hr : (generate_answer_body (stub unreachable (Ok ∅))
                    (py "rates?") fresh_state).2
                 = Raise (Exn VectorStoreError
                     (py "Vector store not initialized. Please process URLs first.")))
      by (vm_compute; reflexivity).
    destruct (generate_answer_body (stub unreachable (Ok ∅))
                (py "rates?") fresh_state) as [[s1 evs] r] eqn:Hbody.
    simpl in Hr. subst r. destruct (Hg _ _ _ eq_refl) as (evs' & Hsame & _).
    rewrite Hsame; [reflexivity | by right].
Defined.

(** ** The lazily initialised handles *)

(** Log records and constructor calls: the events a property access can
    cause. *)
Definition is_quiet (ev : Event) : bool :=
  match ev with
  | EvLog _ _ | EvNew _ _ => true
  | _ => false
  end.

(** The objects a trace creates. *)
Definition created (evs : list Event) : list (Component * Handle) :=
  omap (fun ev => match ev with
                  | EvNew c (Ok h) => Some (c, h)
                  | _ => None
                  end) evs.

(** A handle that is set stays the same, and the flag is not touched. *)
Definition keeps_handles (a b : RAGService) : Prop :=
  (forall h, _llm a = Some h -> _llm b = Some h)
  /\ (forall h, _embeddings a = Some h -> _embeddings b = Some h)
  /\ (forall h, _vector_store a = Some h -> _vector_store b = Some h)
  /\ _initialized b = _initialized a.

Lemma keeps_handles_refl a : keeps_handles a a.
Proof. by repeat split. Qed.

Lemma keeps_handles_trans a b c :
  keeps_handles a b -> keeps_handles b c -> keeps_handles a c.
Proof.
  intros (H1 & H2 & H3 & H4) (K1 & K2 & K3 & K4).
  repeat split; intros; auto. congruence.
Qed.

Ltac unfold_service :=
  unfold llm, embeddings, vector_store, new_object, set_llm, set_embeddings,
    set_vector_store, set_initialized, try_except, bind, call_outside,
    fresh_handle, logger_info, logger_error, emit, ret, raise, get_self,
    put_self, of_res.

Ltac close_handles :=
  simpl; try done;
  try (rewrite ?Forall_app; repeat split; try done; by repeat constructor);
  try (repeat split; simpl; by auto).

Section Handles.

Context {X : Type} (ext : Externals X).

Lemma llm_cached s h : _llm (self s) = Some h -> llm ext s = (s, [], Ok h).
Proof. intros H. unfold_service. by rewrite H. Qed.

Lemma embeddings_cached s h :
  _embeddings (self s) = Some h -> embeddings ext s = (s, [], Ok h).
Proof. intros H. unfold_service. by rewrite H. Qed.

Lemma vector_store_cached s h :
  _vector_store (self s) = Some h -> vector_store ext s = (s, [], Ok h).
Proof. intros H. unfold_service. by rewrite H. Qed.

Lemma llm_spec s s' evs r :
  llm ext s = (s', evs, r) ->
  Forall (fun ev => is_quiet ev = true) evs
  /\ collection s' = collection s
  /\ keeps_handles (self s) (self s')
  /\ (forall h, r = Ok h -> _llm (self s') = Some h)
  /\ (forall h, _llm (self s) = None -> r = Ok h ->
        created evs = [(ChatGroq, h)]).
Proof.
  unfold_service.
  destruct (_llm (self s)) as [h0|] eqn:Hl.
  - intros [= <- <- <-]. repeat split; try done.
    by intros h [= <-].
  - destruct (ChatGroq_new ext (outside s)) as [x' [[]|e]];
      simpl; intros [= <- <- <-]; simpl.
    + repeat split; try done; try (by intros h [= <-]).
      * by repeat constructor.
      * intros h. by rewrite Hl.
      * by intros h _ [= <-].
    + repeat split; try done. by repeat constructor.
Qed.

Lemma embeddings_spec s s' evs r :
  embeddings ext s = (s', evs, r) ->
  Forall (fun ev => is_quiet ev = true) evs
  /\ collection s' = collection s
  /\ keeps_handles (self s) (self s')
  /\ (forall h, r = Ok h -> _embeddings (self s') = Some h)
  /\ (forall h, _embeddings (self s) = None -> r = Ok h ->
        created evs = [(HuggingFaceEmbeddings, h)]).
Proof.
  unfold_service.
  destruct (_embeddings (self s)) as [h0|] eqn:Hl.
  - intros [= <- <- <-]. repeat split; try done.
    by intros h [= <-].
  - destruct (HuggingFaceEmbeddings_new ext (outside s)) as [x' [[]|e]];
      simpl; intros [= <- <- <-]; simpl.
    + repeat split; try done; try (by intros h [= <-]).
      * by repeat constructor.
      * intros h. by rewrite Hl.
      * by intros h _ [= <-].
    + repeat split; try done. by repeat constructor.
Qed.

Lemma vector_store_spec s s' evs r :
  vector_store ext s = (s', evs, r) ->
  Forall (fun ev => is_quiet ev = true) evs
  /\ collection s' = collection s
  /\ keeps_handles (self s) (self s')
  /\ (forall h, r = Ok h -> _vector_store (self s') = Some h)
  /\ (forall h, _vector_store (self s) = None -> r = Ok h ->
        exists earlier, created evs = earlier ++ [(Chroma, h)]).
Proof.
  unfold vector_store.
  intros (s0 & ev0 & r0 & [= <- <- <-] & (evb & H & ->))%bind_inv.
  revert H. simpl.
  destruct (_vector_store (self s)) as [h0|] eqn:Hv.
  - intros [= <- <- <-]. repeat split; try done.
    by intros h [= <-].
  - intros (s1 & ev1 & r1 & Hbody & Hr)%try_except_inv.
    apply bind_inv in Hbody as (s2 & ev2 & r2 & Hemb & Hk).
    apply embeddings_spec in Hemb
      as (Hq2 & Hc2 & (K1 & K2 & K3 & K4) & Hs2 & _).
    destruct r2 as [he|e2].
    + destruct Hk as (ev3 & Hk & ->). revert Hk. unfold_service.
      destruct (Chroma_new ext (outside s2)) as [x' [[]|e]];
        simpl; intros [= <- <- <-]; simpl in *.
      * destruct Hr as (-> & -> & ->).
        split; [|split; [|split; [|split]]]; simpl.
        -- apply Forall_app. split; [done|]. by repeat constructor.
        -- done.
        -- repeat split; simpl; auto. intros h. by rewrite Hv.
        -- by intros h [= <-].
        -- intros h _ [= <-]. unfold created. rewrite omap_app. simpl. eauto.
      * destruct Hr as (ev4 & [= <- <- <-] & ->).
        split; [|split; [|split; [|split]]]; close_handles.
    + destruct Hk as (-> & -> & ->).
      destruct Hr as (ev4 & [= <- <- <-] & ->).
      split; [|split; [|split; [|split]]]; close_handles.
Qed.

End Handles.

(** [n] calls of [m] in a row. *)
Fixpoint times {X : Type} (n : nat) (m : M X unit) : M X unit :=
  match n with
  | 0 => ret tt
  | S n' => m ;; times n' m
  end.

Section Initialize.

Context {X : Type} (ext : Externals X).

Lemma initialize_done s :
  _initialized (self s) = true ->
  initialize ext s = (s, [EvInitialize], Ok tt).
Proof.
  intros H. unfold initialize, bind, emit, get_self, ret. simpl.
  by rewrite H.
Qed.

Lemma initialize_spec s s' evs r :
  initialize ext s = (s', evs, r) ->
  (exists evs0, evs = EvInitialize :: evs0
                /\ Forall (fun ev => is_quiet ev = true) evs0)
  /\ collection s' = collection s
  /\ (r = Ok tt ->
      _initialized (self s') = true
      /\ (_initialized (self s) = false ->
          is_Some (_llm (self s')) /\ is_Some (_embeddings (self s'))
          /\ is_Some (_vector_store (self s')))).
Proof.
  unfold initialize. intros H.
  apply bind_inv in H as (? & ? & ? & [= <- <- <-] & (ev0 & H & ->)).
  apply bind_inv in H as (? & ? & ? & [= <- <- <-] & (ev1 & H & ->)).
  simpl in H. destruct (_initialized (self s)) eqn:Hi.
  { injection H as <- <- <-. split; [eauto|]. split; [done|]. by split. }
  apply bind_inv in H as (? & ? & ? & [= <- <- <-] & (ev2 & H & ->)).
  apply bind_inv in H as (s1 & evl & rl & Hllm & H).
  apply llm_spec in Hllm as (Hq1 & Hc1 & Hk1 & Hs1 & _).
  destruct rl as [hl|e]; cycle 1.
  { destruct H as (-> & -> & ->). split; [|by split].
    eexists. split; [reflexivity|]. simpl. by constructor. }
  destruct H as (ev3 & H & ->).
  apply bind_inv in H as (s2 & eve & re & Hemb & H).
  apply embeddings_spec in Hemb as (Hq2 & Hc2 & Hk2 & Hs2 & _).
  destruct re as [he|e]; cycle 1.
  { destruct H as (-> & -> & ->). split; [|split; [congruence|done]].
    eexists. split; [reflexivity|]. simpl. constructor; [done|].
    by apply Forall_app. }
  destruct H as (ev4 & H & ->).
  apply bind_inv in H as (s3 & evv & rv & Hvs & H).
  apply vector_store_spec in Hvs as (Hq3 & Hc3 & Hk3 & Hs3 & _).
  destruct rv as [hv|e]; cycle 1.
  { destruct H as (-> & -> & ->). split; [|split; [congruence|done]].
    eexists. split; [reflexivity|]. simpl. constructor; [done|].
    rewrite !Forall_app. done. }
  destruct H as (ev5 & H & ->).
  revert H. unfold set_initialized, logger_info, bind, get_self, put_self, emit.
  simpl. intros [= <- <- <-]. simpl.
  split; [|split; [congruence|]].
  - eexists. split; [reflexivity|]. simpl. constructor; [done|].
    rewrite !Forall_app. repeat split; try done. by repeat constructor.
  - intros _. split; [done|]. intros _.
    destruct Hk2 as (L2 & _), Hk3 as (L3 & E3 & _).
    repeat split.
    + exists hl. apply L3, L2, Hs1. done.
    + exists he. apply E3, Hs2. done.
    + exists hv. by apply Hs3.
Qed.

(** C5.  Each of the three properties creates its object on the first
    access -- when the field is empty and the constructor returns, the
    access stores the new handle and the trace shows the one
    construction -- and an access that finds the field set returns the
    stored handle and changes nothing.  After one successful
    [initialize] the flag is set, the three handles are set (when the
    service was not yet initialised), and any number of further calls
    leave the whole state as it is: they only record that they were
    called. *)
Theorem lazy_handles_and_idempotent_initialize s :
  (forall s' evs h, llm ext s = (s', evs, Ok h) ->
     _llm (self s') = Some h
     /\ llm ext s' = (s', [], Ok h)
     /\ (_llm (self s) = None -> created evs = [(ChatGroq, h)])
     /\ (forall h0, _llm (self s) = Some h0 -> h = h0 /\ s' = s /\ evs = []))
  /\ (forall s' evs h, embeddings ext s = (s', evs, Ok h) ->
     _embeddings (self s') = Some h
     /\ embeddings ext s' = (s', [], Ok h)
     /\ (_embeddings (self s) = None ->
         created evs = [(HuggingFaceEmbeddings, h)])
     /\ (forall h0, _embeddings (self s) = Some h0 ->
           h = h0 /\ s' = s /\ evs = []))
  /\ (forall s' evs h, vector_store ext s = (s', evs, Ok h) ->
     _vector_store (self s') = Some h
     /\ vector_store ext s' = (s', [], Ok h)
     /\ (_vector_store (self s) = None ->
         exists earlier, created evs = earlier ++ [(Chroma, h)])
     /\ (forall h0, _vector_store (self s) = Some h0 ->
           h = h0 /\ s' = s /\ evs = []))
  /\ (forall s' evs, initialize ext s = (s', evs, Ok tt) ->
     _initialized (self s') = true
     /\ (_initialized (self s) = false ->
         is_Some (_llm (self s')) /\ is_Some (_embeddings (self s'))
         /\ is_Some (_vector_store (self s')))
     /\ forall n, times n (initialize ext) s'
                  = (s', replicate n EvInitialize, Ok tt)).
Proof.
  split; [|split; [|split]].
  - intros s' evs h Hrun.
    pose proof (llm_spec ext _ _ _ _ Hrun) as (_ & _ & _ & Hs & Hc).
    specialize (Hs h eq_refl).
    split; [done|]. split; [by apply llm_cached|]. split; [by auto|].
    intros h0 H0. rewrite (llm_cached ext s h0 H0) in Hrun.
    by injection Hrun as <- <- <-.
  - intros s' evs h Hrun.
    pose proof (embeddings_spec ext _ _ _ _ Hrun) as (_ & _ & _ & Hs & Hc).
    specialize (Hs h eq_refl).
    split; [done|]. split; [by apply embeddings_cached|]. split; [by auto|].
    intros h0 H0. rewrite (embeddings_cached ext s h0 H0) in Hrun.
    by injection Hrun as <- <- <-.
  - intros s' evs h Hrun.
    pose proof (vector_store_spec ext _ _ _ _ Hrun) as (_ & _ & _ & Hs & Hc).
    specialize (Hs h eq_refl).
    split; [done|]. split; [by apply vector_store_cached|]. split; [by auto|].
    intros h0 H0. rewrite (vector_store_cached ext s h0 H0) in Hrun.
    by injection Hrun as <- <- <-.
  - intros s' evs Hrun.
    apply initialize_spec in Hrun as (_ & _ & Hok).
    destruct (Hok eq_refl) as [Hflag Hhandles].
    split; [done|]. split; [done|].
    induction n as [|n IH]; [done|].
    simpl. unfold bind. by rewrite (initialize_done s' Hflag), IH.
Qed.

End Initialize.

Lemma lazy_handles_and_idempotent_initialize_witness :
  let s1 := (initialize (stub one_page_each (Ok ∅)) fresh_state).1.1 in
  self s1 = {| _llm := Some 0; _vector_store := Some 2;
               _embeddings := Some 1; _initialized := true |}
  /\ times 3 (initialize (stub one_page_each (Ok ∅))) s1
     = (s1, [EvInitialize; EvInitialize; EvInitialize], Ok tt).
Proof.
  destruct (initialize (stub one_page_each (Ok ∅)) fresh_state)
    as [[s1 evs] r] eqn:Hrun.
  assert (Hs : (initialize (stub one_page_each (Ok ∅)) fresh_state).1.1
               = {| self := {| _llm := Some 0; _vector_store := Some 2;
                               _embeddings := Some 1; _initialized := true |};
                    collection := []; next_handle := 3; outside := 0 |}
               /\ (initialize (stub one_page_each (Ok ∅)) fresh_state).2 = Ok tt)
    by (vm_compute; split; reflexivity).
  rewrite Hrun in Hs. simpl in Hs. destruct Hs as [-> ->]. simpl.
  split; [reflexivity|].
  pose proof (lazy_handles_and_idempotent_initialize
                (stub one_page_each (Ok ∅)) fresh_state) as (_ & _ & _ & Hinit).
  destruct (Hinit _ _ Hrun) as (_ & _ & Htimes).
  exact (Htimes 3).
Defined.

(** ** [generate_answer] *)

Definition is_log (ev : Event) : Prop := exists lvl msg, ev = EvLog lvl msg.

Lemma validate_query_Raise (query : str) e :
  validate_query query = Raise e -> exc_class e = ValidationError.
Proof.
  unfold validate_query.
  destruct (negb _ || negb _); [by intros [= <-]|].
  destruct (_ <? _); [by intros [= <-] | done].
Qed.

Section GenerateAnswer.

Context {X : Type} (ext : Externals X).

Lemma invoke_inv question s s' evs r :
  invoke ext question s = (s', evs, r) ->
  evs = [EvInvoke question r].
Proof.
  unfold invoke, bind, get_collection, call_outside, emit, of_res.
  destruct (chain_invoke ext question (collection s) (outside s)) as [x' r'].
  simpl. by intros [= <- <- <-].
Qed.

(** C4, as amended.  For a query that [validate_query] accepts, a call
    made while the service is not initialised (the flag is unset or the
    vector store handle is absent) raises the [VectorStoreError]
    "Vector store not initialized. Please process URLs first.", leaves
    the whole state as it was and does nothing but write log records: no
    retrieval, no LLM call.  For a query that [validate_query] rejects
    the call raises an [LLMError] carrying the validation message,
    whatever the state of the service.  Whenever the call returns, the
    chain was invoked on the cleaned query and the pair returned is
    [result.get("answer", "No answer generated")] and
    [result.get("sources", "No sources found")]. *)
Theorem generate_answer_spec (query : str) s :
  (forall q, validate_query query = Ok q ->
     _initialized (self s) = false \/ _vector_store (self s) = None ->
     exists evs,
       generate_answer ext query s
       = (s, evs,
          Raise (Exn VectorStoreError
                   (py "Vector store not initialized. Please process URLs first.")))
       /\ Forall is_log evs)
  /\ (forall e, validate_query query = Raise e ->
     exists evs,
       generate_answer ext query s
       = (s, evs,
          Raise (Exn LLMError (py "Answer generation failed: " ++ exc_str e)))
       /\ Forall is_log evs)
  /\ (forall s' evs answer sources,
     generate_answer ext query s = (s', evs, Ok (answer, sources)) ->
     exists q result,
       validate_query query = Ok q
       /\ EvInvoke q (Ok result) ∈ evs
       /\ answer = default (py "No answer generated") (result !! py "answer")
       /\ sources = default (py "No sources found") (result !! py "sources")).
Proof.
  split; [|split].
  - intros q Hq Hun. rewrite generate_answer_run.
    unfold generate_answer_body, bind, of_res, logger_info, emit, get_self,
      raise, ret.
    rewrite Hq.
    assert (Hc : negb (_initialized (self s))
                 || bool_decide (_vector_store (self s) = None) = true).
    { destruct Hun as [-> | ->]; [done|]. by rewrite orb_true_r. }
    rewrite Hc. simpl. eexists. split; [reflexivity|].
    repeat constructor; unfold is_log; eauto.
  - intros e He. rewrite generate_answer_run.
    unfold generate_answer_body, bind, of_res. rewrite He.
    assert (Hi : isinstance e [LLMError; VectorStoreError] = false).
    { apply validate_query_Raise in He.
      destruct (isinstance e _) eqn:Hi; [|done].
      apply isinstance_LLM_or_VectorStore in Hi. destruct Hi; congruence. }
    rewrite Hi. eexists. split; [reflexivity|].
    repeat constructor; unfold is_log; eauto.
  - intros s' evs answer sources. rewrite generate_answer_run.
    destruct (generate_answer_body ext query s) as [[s1 ev1] [a|e]] eqn:Hbody;
      [|done].
    intros [= <- <- ->]. revert Hbody. unfold generate_answer_body.
    intros (? & ? & rq & [= <- <- <-] & H)%bind_inv.
    destruct (validate_query query) as [q|eq]; [|by destruct H as (_ & _ & ?)].
    destruct H as (ev0 & H & ->). exists q.
    apply bind_inv in H as (? & ? & ? & [= <- <- <-] & (ev2 & H & ->)).
    apply bind_inv in H as (? & ? & ? & [= <- <- <-] & (ev3 & H & ->)).
    apply bind_inv in H as (s2 & ev4 & r4 & Hguard & H).
    destruct r4 as [[]|e4]; [|by destruct H as (_ & _ & ?)].
    destruct H as (ev5 & H & ->).
    rewrite error_handler_run in H.
    destruct (bind (llm ext) _ s2) as [[s3 ev6] r6] eqn:Hblock.
    injection H as <- <- ->.
    apply bind_inv in Hblock as (s4 & ev7 & [hl|e7] & _ & H);
      [|by destruct H as (_ & _ & ?)].
    destruct H as (ev8 & H & ->).
    apply bind_inv in H as (s5 & ev9 & [hv|e9] & _ & H);
      [|by destruct H as (_ & _ & ?)].
    destruct H as (ev10 & H & ->).
    apply bind_inv in H as (s6 & ev11 & [[]|e11] & _ & H);
      [|by destruct H as (_ & _ & ?)].
    destruct H as (ev12 & H & ->).
    apply bind_inv in H as (s7 & ev13 & [result|e13] & Hinv & H);
      [|by destruct H as (_ & _ & ?)].
    destruct H as (ev14 & H & ->).
    apply invoke_inv in Hinv as ->.
    revert H. unfold bind, logger_info, emit, ret. intros [= <- <- <- <-].
    exists result. split; [done|]. split; [|done].
    rewrite !elem_of_app, !elem_of_cons, !elem_of_app. set_solver.
Qed.

End GenerateAnswer.

(** What the chain of the examples returns: an answer and no sources. *)
Definition answer_only : gmap str str := {[ py "answer" := py "High." ]}.

Lemma generate_answer_spec_witness :
  (exists evs,
     generate_answer (stub one_page_each (Ok answer_only)) (py " rates? ") fresh_state
     = (fresh_state, evs,
        Raise (Exn VectorStoreError
                 (py "Vector store not initialized. Please process URLs first.")))
     /\ Forall is_log evs)
  /\ (exists evs,
     generate_answer (stub one_page_each (Ok answer_only)) (py "  ") fresh_state
     = (fresh_state, evs,
        Raise (Exn LLMError (py "Answer generation failed: " ++
                 exc_str (Exn ValidationError (py "Query cannot be empty")))))
     /\ Forall is_log evs).
Proof.
  split.
  - apply (proj1 (generate_answer_spec (stub one_page_each (Ok answer_only))
                    (py " rates? ") fresh_state) (py "rates?")).
    + vm_compute. reflexivity.
    + by left.
  - apply (proj1 (proj2 (generate_answer_spec
                           (stub one_page_each (Ok answer_only))
                           (py "  ") fresh_state))).
    vm_compute. reflexivity.
Defined.

(** After an ingestion the chain's result lacks the ["sources"] key, and
    the default takes its place. *)
Example generate_answer_default_sources :
  let s1 := (process_urls (stub one_page_each (Ok answer_only))
               [py "https://example.com"] fresh_state).1.1 in
  (generate_answer (stub one_page_each (Ok answer_only)) (py "rates?") s1).2
  = Ok (py "High.", py "No sources found").
Proof. vm_compute. reflexivity. Qed.

(** C4, as stated, fails: before any ingestion, the empty query is
    answered with an [LLMError], not with a [VectorStoreError]. *)
Lemma generate_answer_empty_query_before_initialization :
  _initialized (self fresh_state) = false
  /\ _vector_store (self fresh_state) = None
  /\ (generate_answer (stub one_page_each (Ok answer_only)) [] fresh_state).2
     = Raise (Exn LLMError (py "Answer generation failed: Query cannot be empty"))
  /\ forall msg,
       (generate_answer (stub one_page_each (Ok answer_only)) [] fresh_state).2
       <> Raise (Exn VectorStoreError msg).
Proof.
  assert (H : (generate_answer (stub one_page_each (Ok answer_only)) []
                 fresh_state).2
              = Raise (Exn LLMError
                         (py "Answer generation failed: Query cannot be empty")))
    by (vm_compute; reflexivity).
  split; [done|]. split; [done|]. split; [exact H|].
  intros msg. rewrite H. discriminate.
Qed.

(** ** The runs of [process_urls] *)

(** The trace without log records and constructor calls: the status
    messages and the steps. *)
Definition step_trace (evs : list Event) : list Event :=
  List.filter (fun ev => negb (is_quiet ev)) evs.

Lemma step_trace_app evs1 evs2 :
  step_trace (evs1 ++ evs2) = step_trace evs1 ++ step_trace evs2.
Proof. apply List.filter_app. Qed.

Lemma step_trace_quiet evs :
  Forall (fun ev => is_quiet ev = true) evs -> step_trace evs = [].
Proof.
  induction 1 as [|ev evs Hev _ IH]; [done|].
  unfold step_trace in *. simpl. by rewrite Hev.
Qed.

Lemma step_trace_uuids (ids : list str) :
  step_trace (EvUuid4 <$> ids) = EvUuid4 <$> ids.
Proof. induction ids as [|u ids IH]; [done|]. simpl. by f_equal. Qed.

Lemma elem_of_step_trace ev evs :
  ev ∈ step_trace evs <-> ev ∈ evs /\ is_quiet ev = false.
Proof.
  unfold step_trace. rewrite !list_elem_of_In, List.filter_In.
  destruct (is_quiet ev); simpl; intuition congruence.
Qed.

Section Operations.

Context {X : Type} (ext : Externals X).

Lemma reset_collection_inv vs s s' evs r :
  reset_collection ext vs s = (s', evs, r) ->
  evs = [EvResetCollection r] /\ self s' = self s
  /\ collection s' = match r with Ok _ => [] | Raise _ => collection s end.
Proof.
  unfold reset_collection, bind, call_outside, emit, put_collection, raise.
  destruct (Chroma_reset_collection ext (outside s)) as [x' [[]|e]];
    simpl; by intros [= <- <- <-].
Qed.

Lemma add_documents_inv vs chunks ids s s' evs r :
  add_documents ext vs chunks ids s = (s', evs, r) ->
  evs = [EvAddDocuments chunks ids r] /\ self s' = self s
  /\ collection s' = match r with
                     | Ok _ => collection s ++ zip ids chunks
                     | Raise _ => collection s
                     end.
Proof.
  unfold add_documents, bind, call_outside, emit, get_collection,
    put_collection, raise.
  destruct (Chroma_add_documents ext chunks ids (outside s)) as [x' [[]|e]];
    simpl; by intros [= <- <- <-].
Qed.

Lemma load_inv urls s s' evs r :
  load ext urls s = (s', evs, r) ->
  evs = [EvLoad urls r] /\ self s' = self s /\ collection s' = collection s.
Proof.
  unfold load, bind, call_outside, emit, of_res.
  destruct (UnstructuredURLLoader_load ext urls (outside s)) as [x' r'].
  simpl. by intros [= <- <- <-].
Qed.

Lemma split_inv cfg docs s s' evs r :
  split ext cfg docs s = (s', evs, r) ->
  evs = [EvSplit cfg docs r] /\ s' = s.
Proof.
  unfold split, bind, emit, of_res. simpl. by intros [= <- <- <-].
Qed.

(** One UUID is drawn per requested id, and drawing never fails. *)
Lemma new_uuids_inv n s s' evs r :
  new_uuids ext n s = (s', evs, r) ->
  exists ids, r = Ok ids /\ evs = EvUuid4 <$> ids /\ length ids = n
              /\ self s' = self s /\ collection s' = collection s.
Proof.
  revert s s' evs r. induction n as [|n IH]; intros s s' evs r; simpl.
  - intros [= <- <- <-]. by exists [].
  - unfold bind at 1. unfold new_uuid, bind at 1, call_outside, emit, ret.
    destruct (uuid4 ext (outside s)) as [x' u] eqn:Hu. simpl.
    unfold bind at 1.
    destruct (new_uuids ext n _) as [[s2 ev2] r2] eqn:Hn.
    apply IH in Hn as (ids & -> & -> & Hlen & Hs & Hc). simpl.
    intros [= <- <- <-]. exists (u :: ids). simpl in *.
    repeat split; try done.
    + by rewrite app_nil_r.
    + by rewrite Hlen.
Qed.

End Operations.

(** The steps an ingestion has behind it when it resets the collection,
    when it loads the pages and when it stores the chunks. *)
Definition steps_to_reset (urls : list str) : list Event :=
  [EvValidateUrls urls (Ok urls); EvYield msg_initializing; EvInitialize;
   EvYield msg_resetting].

Definition steps_to_load (urls : list str) : list Event :=
  steps_to_reset urls ++ [EvResetCollection (Ok tt); EvYield msg_loading].

Definition steps_to_add (urls : list str) (docs chunks : list Document)
    : list Event :=
  steps_to_load urls
  ++ [EvLoad urls (Ok docs); EvYield msg_splitting;
      EvSplit splitter_config docs (Ok chunks); EvYield msg_adding].

Definition no_documents_error : exn :=
  Exn URLProcessingError (py "No documents were loaded from the provided URLs").

(** Every run of the body of [process_urls] is one of these: the steps it
    took with the messages it yielded, the collection it leaves and its
    outcome, for a collection that held [before] at the start. *)
Inductive Ingestion {X : Type} (ext : Externals X) (urls : list str)
    (before : list (str * Document))
  : list Event -> list (str * Document) -> Res unit -> Prop :=
| ing_invalid e :
    validate_urls (urlparse ext) urls = Raise e ->
    Ingestion ext urls before [EvValidateUrls urls (Raise e)] before (Raise e)
| ing_initialize_failed e :
    validate_urls (urlparse ext) urls = Ok urls ->
    Ingestion ext urls before
      [EvValidateUrls urls (Ok urls); EvYield msg_initializing; EvInitialize]
      before (Raise e)
| ing_store_failed e :
    validate_urls (urlparse ext) urls = Ok urls ->
    Ingestion ext urls before (steps_to_reset urls) before (Raise e)
| ing_reset_failed e :
    validate_urls (urlparse ext) urls = Ok urls ->
    Ingestion ext urls before
      (steps_to_reset urls ++ [EvResetCollection (Raise e)]) before (Raise e)
| ing_load_failed e :
    validate_urls (urlparse ext) urls = Ok urls ->
    Ingestion ext urls before
      (steps_to_load urls ++ [EvLoad urls (Raise e)]) [] (Raise e)
| ing_no_documents :
    validate_urls (urlparse ext) urls = Ok urls ->
    Ingestion ext urls before
      (steps_to_load urls ++ [EvLoad urls (Ok [])]) [] (Raise no_documents_error)
| ing_split_failed docs e :
    validate_urls (urlparse ext) urls = Ok urls ->
    docs <> [] ->
    Ingestion ext urls before
      (steps_to_load urls
       ++ [EvLoad urls (Ok docs); EvYield msg_splitting;
           EvSplit splitter_config docs (Raise e)])
      [] (Raise e)
| ing_add_failed docs chunks ids e :
    validate_urls (urlparse ext) urls = Ok urls ->
    docs <> [] -> length ids = length chunks ->
    Ingestion ext urls before
      (steps_to_add urls docs chunks ++ (EvUuid4 <$> ids)
       ++ [EvAddDocuments chunks ids (Raise e)])
      [] (Raise e)
| ing_done docs chunks ids :
    validate_urls (urlparse ext) urls = Ok urls ->
    docs <> [] -> length ids = length chunks ->
    Ingestion ext urls before
      (steps_to_add urls docs chunks ++ (EvUuid4 <$> ids)
       ++ [EvAddDocuments chunks ids (Ok tt); EvYield msg_success])
      (zip ids chunks) (Ok tt).

Lemma Ingestion_eq {X : Type} (ext : Externals X) urls before tr tr' c c' r :
  Ingestion ext urls before tr' c' r -> tr = tr' -> c = c' ->
  Ingestion ext urls before tr c r.
Proof. by intros H -> ->. Qed.

(** A step of the body that cannot fail: its events are known and the run
    goes on. *)
Ltac prim H :=
  apply bind_inv in H as (? & ? & ? & [= <- <- <-] & (? & H & ->)).

Ltac norm_trace :=
  unfold steps_to_add, steps_to_load, steps_to_reset;
  repeat (progress (rewrite ?step_trace_app; simpl;
                    repeat (rewrite step_trace_quiet by assumption);
                    rewrite ?step_trace_uuids; rewrite ?app_nil_r)).

(** The block of a [with self.error_handler(...)] statement. *)
Ltac with_block H Hblock :=
  rewrite error_handler_run in H;
  match type of H with
  | context [match ?b with _ => _ end] =>
      destruct b as [[? ?] ?] eqn:Hblock
  end;
  injection H as -> <- ->.

Section Ingestions.

Context {X : Type} (ext : Externals X).

Lemma process_urls_body_runs (urls : list str) s s' evs r :
  process_urls_body ext urls s = (s', evs, r) ->
  Ingestion ext urls (collection s) (step_trace evs) (collection s') r.
Proof.
  unfold process_urls_body. intros H.
  prim H.
  apply bind_inv in H as (? & ? & rv & [= <- <- <-] & H).
  destruct (validate_urls (urlparse ext) urls) as [valid|e] eqn:Hval; cycle 1.
  { destruct H as (-> & -> & ->). simpl. by apply ing_invalid. }
  pose proof (validate_urls_Ok_eq _ _ _ Hval) as ->.
  destruct H as (? & H & ->).
  prim H. prim H.
  apply bind_inv in H as (s1 & evi & ri & Hinit & H).
  apply initialize_spec in Hinit as ((evs0 & -> & Hq0) & Hc1 & _).
  destruct ri as [[]|e]; cycle 1.
  { destruct H as (-> & -> & ->).
    eapply Ingestion_eq; [by apply (ing_initialize_failed _ _ _ e) | | done].
    by norm_trace. }
  destruct H as (? & H & ->).
  prim H.
  apply bind_inv in H as (s2 & evr & rr & Hreset & H).
  with_block Hreset Hblock.
  apply bind_inv in Hblock as (s3 & evv & rvs & Hvs & Hk).
  pose proof (vector_store_spec ext _ _ _ _ Hvs) as (Hqv & Hcv & _ & Hsv & _).
  destruct rvs as [vs|e]; cycle 1.
  { destruct Hk as (-> & -> & ->). destruct H as (-> & -> & ->).
    eapply Ingestion_eq; [by apply (ing_store_failed _ _ _ e) | | congruence].
    by norm_trace. }
  destruct Hk as (evreset & Hreset & ->).
  apply reset_collection_inv in Hreset as (-> & Hself2 & Hcoll2).
  destruct rr as [[]|e]; cycle 1.
  { destruct H as (-> & -> & ->).
    eapply Ingestion_eq; [by apply (ing_reset_failed _ _ _ e) | | congruence].
    by norm_trace. }
  destruct H as (? & H & ->).
  prim H.
  apply bind_inv in H as (s4 & evl & rl & Hload & H).
  with_block Hload Hblock.
  apply load_inv in Hblock as (-> & Hself4 & Hcoll4).
  destruct rl as [docs|e]; cycle 1.
  { destruct H as (-> & -> & ->).
    eapply Ingestion_eq; [by apply (ing_load_failed _ _ _ e) | | congruence].
    by norm_trace. }
  destruct H as (? & H & ->).
  apply bind_inv in H as (? & ? & rg & Hguard & H).
  destruct docs as [|d docs]; simpl in Hguard.
  { injection Hguard as <- <- <-. destruct H as (-> & -> & ->).
    eapply Ingestion_eq; [by apply ing_no_documents | | congruence].
    by norm_trace. }
  injection Hguard as <- <- <-. destruct H as (? & H & ->).
  prim H. prim H.
  apply bind_inv in H as (s5 & evsp & rs & Hsplit & H).
  with_block Hsplit Hblock.
  apply split_inv in Hblock as (-> & ->).
  destruct rs as [chunks|e]; cycle 1.
  { destruct H as (-> & -> & ->).
    eapply Ingestion_eq;
      [by apply (ing_split_failed _ _ _ (d :: docs) e) | | congruence].
    by norm_trace. }
  destruct H as (? & H & ->).
  prim H. prim H.
  apply bind_inv in H as (s6 & eva & ra & Hadd & H).
  with_block Hadd Hblock.
  apply bind_inv in Hblock as (s7 & evu & ru & Hu & Hk).
  apply new_uuids_inv in Hu as (ids & -> & -> & Hlen & Hself7 & Hcoll7).
  destruct Hk as (? & Hk & ->).
  apply bind_inv in Hk as (s8 & ev8 & rvs2 & Hvs2 & Hk).
  rewrite (vector_store_cached ext s7 vs) in Hvs2
    by (rewrite Hself7, Hself4, Hself2; by apply Hsv).
  injection Hvs2 as <- <- <-. destruct Hk as (? & Hk & ->).
  apply add_documents_inv in Hk as (-> & _ & Hcoll8).
  destruct ra as [[]|e]; cycle 1.
  { destruct H as (-> & -> & ->).
    eapply Ingestion_eq;
      [by apply (ing_add_failed _ _ _ (d :: docs) chunks ids e) | | congruence].
    by norm_trace. }
  destruct H as (? & H & ->).
  revert H. unfold bind, yield, logger_info, emit. intros [= <- <- <-].
  eapply Ingestion_eq;
    [by apply (ing_done _ _ _ (d :: docs) chunks ids) | | ].
  - norm_trace. by rewrite <- app_assoc.
  - rewrite Hcoll8, Hcoll7, Hcoll4, Hcoll2. done.
Qed.

(** [process_urls] runs the body and translates its exception. *)
Lemma process_urls_runs (urls : list str) s s' evs r :
  process_urls ext urls s = (s', evs, r) ->
  exists r0,
    Ingestion ext urls (collection s) (step_trace evs) (collection s') r0
    /\ match r0 with
       | Ok _ => r = Ok tt
       | Raise e0 => exists e, r = Raise e
                               /\ (e0 = no_documents_error -> e = e0)
       end.
Proof.
  rewrite process_urls_run.
  destruct (process_urls_body ext urls s) as [[s1 ev1] r1] eqn:Hbody.
  apply process_urls_body_runs in Hbody.
  destruct r1 as [[]|e1]; intros [= <- <- <-].
  - by exists (Ok tt).
  - exists (Raise e1). rewrite step_trace_app. simpl. rewrite app_nil_r.
    split; [done|]. eexists. split; [reflexivity|]. by intros ->.
Qed.

End Ingestions.

(** The six steps of an ingestion, and the status messages. *)
Definition is_step (ev : Event) : bool :=
  match ev with
  | EvValidateUrls _ _ | EvInitialize | EvResetCollection _
  | EvLoad _ _ | EvSplit _ _ _ | EvAddDocuments _ _ _ => true
  | _ => false
  end.

Definition is_yield (ev : Event) : bool :=
  match ev with EvYield _ => true | _ => false end.

(** The order as the specification words it: a status message is yielded
    before each step.  [announced] tells whether a message has been
    yielded since the last step. *)
Fixpoint status_before_each_step (announced : bool) (evs : list Event) : bool :=
  match evs with
  | [] => true
  | ev :: evs' =>
      if is_step ev then announced && status_before_each_step false evs'
      else if is_yield ev then status_before_each_step true evs'
      else status_before_each_step announced evs'
  end.

(** Events of the chunking and of the storing. *)
Definition is_chunking_or_storing (ev : Event) : bool :=
  match ev with
  | EvSplit _ _ _ | EvUuid4 _ | EvAddDocuments _ _ _ => true
  | _ => false
  end.

Ltac trace_mem H :=
  unfold steps_to_add, steps_to_load, steps_to_reset in H;
  repeat match type of H with
    | _ ∈ _ ++ _ => apply elem_of_app in H as [H|H]
    | _ ∈ _ :: _ => apply elem_of_cons in H as [H|H]
    | _ ∈ [] => by apply elem_of_nil in H
    | _ ∈ _ <$> _ => apply list_elem_of_fmap in H as (? & H & _)
    | _ = _ => try discriminate H
    end.

Section Order.

Context {X : Type} (ext : Externals X).

(** C2, as amended.  A run of [process_urls] that completes validated
    the URLs first, before any status message, and then performed the
    other five steps in this order, each after its own status message:
    initialise the components, reset the collection, load the URLs,
    split the documents (which are not empty) with the fixed splitter
    configuration, draw one UUID per chunk and add the chunks under
    these UUIDs; the last thing it yields is the success message.  A
    run in which the loader returns no document raises the
    [URLProcessingError] "No documents were loaded from the provided
    URLs" and neither splits nor draws a UUID nor stores anything. *)
Theorem process_urls_step_order (urls : list str) s s' evs r :
  process_urls ext urls s = (s', evs, r) ->
  (r = Ok tt ->
   exists docs chunks ids,
     docs <> [] /\ length ids = length chunks
     /\ step_trace evs
        = [EvValidateUrls urls (Ok urls);
           EvYield msg_initializing; EvInitialize;
           EvYield msg_resetting; EvResetCollection (Ok tt);
           EvYield msg_loading; EvLoad urls (Ok docs);
           EvYield msg_splitting; EvSplit splitter_config docs (Ok chunks);
           EvYield msg_adding]
          ++ (EvUuid4 <$> ids)
          ++ [EvAddDocuments chunks ids (Ok tt); EvYield msg_success])
  /\ (forall urls', EvLoad urls' (Ok []) ∈ evs ->
      r = Raise no_documents_error
      /\ forall ev, ev ∈ evs -> is_chunking_or_storing ev = false).
Proof.
  intros (r0 & Hing & Hr)%process_urls_runs. split.
  - intros ->. inversion Hing; subst; try (by destruct Hr as (? & ? & _)).
    eauto 10.
  - intros urls' Hload.
    assert (Hload' : EvLoad urls' (Ok []) ∈ step_trace evs)
      by by apply elem_of_step_trace.
    inversion Hing as [e Hv Htr|e Hv Htr|e Hv Htr|e Hv Htr|e Hv Htr|Hv Htr
                       |docs e Hv Hd Htr|docs chunks ids e Hv Hd Hl Htr
                       |docs chunks ids Hv Hd Hl Htr]; subst;
      rewrite <- Htr in Hload'; trace_mem Hload';
      try (injection Hload' as _ <-; done).
    destruct Hr as (e & -> & He). rewrite (He eq_refl). split; [done|].
    intros ev Hev. destruct (is_chunking_or_storing ev) eqn:Hc; [|done].
    assert (Hev' : ev ∈ step_trace evs).
    { apply elem_of_step_trace. split; [done|]. by destruct ev. }
    rewrite <- Htr in Hev'. trace_mem Hev'; by subst ev.
Qed.

(** C10.  [process_urls] is not atomic on the vector store.  When a run
    has reset the collection and then fails, the collection is left
    empty: what it held before the call is gone.  In particular a run
    whose loader raises or returns no document fails after the reset,
    and leaves the collection empty. *)
Theorem process_urls_not_atomic (urls : list str) s s' evs r :
  process_urls ext urls s = (s', evs, r) ->
  (forall e, r = Raise e -> EvResetCollection (Ok tt) ∈ evs ->
     collection s' = [])
  /\ (forall urls' rl, EvLoad urls' rl ∈ evs ->
      rl = Ok [] \/ (exists e, rl = Raise e) ->
      (exists e, r = Raise e)
      /\ EvResetCollection (Ok tt) ∈ evs
      /\ collection s' = []).
Proof.
  intros (r0 & Hing & Hr)%process_urls_runs. split.
  - intros e -> Hreset.
    assert (Hreset' : EvResetCollection (Ok tt) ∈ step_trace evs)
      by by apply elem_of_step_trace.
    inversion Hing as [e0 Hv Htr|e0 Hv Htr|e0 Hv Htr|e0 Hv Htr|e0 Hv Htr|Hv Htr
                       |docs e0 Hv Hd Htr|docs chunks ids e0 Hv Hd Hl Htr
                       |docs chunks ids Hv Hd Hl Htr]; subst; try done;
      rewrite <- Htr in Hreset'; trace_mem Hreset'.
  - intros urls' rl Hload Hrl.
    assert (Hload' : EvLoad urls' rl ∈ step_trace evs)
      by by apply elem_of_step_trace.
    assert (Hin : forall ev, ev ∈ step_trace evs -> ev ∈ evs)
      by (intros ev Hev; by apply elem_of_step_trace in Hev as [? _]).
    inversion Hing as [e0 Hv Htr|e0 Hv Htr|e0 Hv Htr|e0 Hv Htr|e0 Hv Htr|Hv Htr
                       |docs e0 Hv Hd Htr|docs chunks ids e0 Hv Hd Hl Htr
                       |docs chunks ids Hv Hd Hl Htr]; subst;
      rewrite <- Htr in Hload'; trace_mem Hload';
      try (injection Hload' as _ ->; destruct Hrl as [[= ->]|[? [=]]]; done);
      destruct Hr as (e & -> & _);
      (split; [eauto|]); (split; [|done]);
      apply Hin; rewrite <- Htr;
      rewrite !elem_of_cons; auto 10.
Qed.

End Order.

Lemma process_urls_step_order_witness :
  exists docs chunks ids,
    docs <> [] /\ length ids = length chunks
    /\ step_trace (process_urls (stub one_page_each (Ok ∅))
                     [py "https://example.com"] fresh_state).1.2
       = [EvValidateUrls [py "https://example.com"] (Ok [py "https://example.com"]);
          EvYield msg_initializing; EvInitialize;
          EvYield msg_resetting; EvResetCollection (Ok tt);
          EvYield msg_loading; EvLoad [py "https://example.com"] (Ok docs);
          EvYield msg_splitting; EvSplit splitter_config docs (Ok chunks);
          EvYield msg_adding]
         ++ (EvUuid4 <$> ids)
         ++ [EvAddDocuments chunks ids (Ok tt); EvYield msg_success].
Proof.
  assert (Hr : (process_urls (stub one_page_each (Ok ∅))
                  [py "https://example.com"] fresh_state).2 = Ok tt)
    by (vm_compute; reflexivity).
  destruct (process_urls (stub one_page_each (Ok ∅))
              [py "https://example.com"] fresh_state) as [[s' evs] r] eqn:Hrun.
  simpl in Hr. simpl.
  exact (proj1 (process_urls_step_order _ _ _ _ _ _ Hrun) Hr).
Defined.

(** C2, as stated, fails: in a run that completes, the validation of the
    URLs is not preceded by a status message -- the first message is
    yielded after it.  The five steps that follow are each preceded by
    one. *)
Lemma process_urls_validates_before_any_status :
  let run := process_urls (stub one_page_each (Ok ∅))
               [py "https://example.com"] fresh_state in
  run.2 = Ok tt
  /\ head (step_trace run.1.2)
     = Some (EvValidateUrls [py "https://example.com"]
               (Ok [py "https://example.com"]))
  /\ status_before_each_step false run.1.2 = false
  /\ status_before_each_step false (tail (step_trace run.1.2)) = true.
Proof. vm_compute. repeat split. Qed.

Lemma process_urls_not_atomic_witness :
  let run := process_urls (stub unreachable (Ok ∅))
               [py "https://example.com"] used_state in
  collection used_state = [earlier_chunk]
  /\ (exists e, run.2 = Raise e)
  /\ collection run.1.1 = [].
Proof.
  assert (Hload : EvLoad [py "https://example.com"]
                    (Raise (Exn (BuiltinException (py "ConnectionError"))
                              (py "timed out")))
                  ∈ (process_urls (stub unreachable (Ok ∅))
                       [py "https://example.com"] used_state).1.2).
  { apply (bool_decide_unpack _). vm_compute. exact I. }
  destruct (process_urls (stub unreachable (Ok ∅))
              [py "https://example.com"] used_state) as [[s' evs] r] eqn:Hrun.
  simpl in *. split; [reflexivity|].
  destruct (proj2 (process_urls_not_atomic _ _ _ _ _ _ Hrun) _ _ Hload)
    as (He & _ & Hc); [right; eauto | done].
Defined.

(** ** The chunking step *)

Section Chunking.

Context {X : Type} (ext : Externals X).

(** Whenever [process_urls] calls the splitter, it is with the four
    separators of the source in their order (two line feeds, one line
    feed, a full stop, a space, as code points), chunk size 1000 and chunk
    overlap 200, on the documents the loader returned; the chunks it
    stores are the ones the splitter returned.  What a chunk looks like is
    decided by the splitter, a library the service calls. *)
Lemma splitter_configuration_fixed (urls : list str) s s' evs r cfg docs rs :
  process_urls ext urls s = (s', evs, r) ->
  EvSplit cfg docs rs ∈ evs ->
  separators cfg = [[10; 10]; [10]; [46]; [32]]%N
  /\ splitter_chunk_size cfg = 1000
  /\ splitter_chunk_overlap cfg = 200
  /\ EvLoad urls (Ok docs) ∈ evs
  /\ forall chunks ids ra, EvAddDocuments chunks ids ra ∈ evs ->
       rs = Ok chunks.
Proof.
  intros (r0 & Hing & Hr)%process_urls_runs Hsplit.
  assert (Hsplit' : EvSplit cfg docs rs ∈ step_trace evs)
    by by apply elem_of_step_trace.
  assert (Hin : forall ev, ev ∈ step_trace evs -> ev ∈ evs)
    by (intros ev Hev; by apply elem_of_step_trace in Hev as [? _]).
  assert (Hadd : forall chunks ids ra, EvAddDocuments chunks ids ra ∈ evs ->
                   EvAddDocuments chunks ids ra ∈ step_trace evs)
    by (intros; by apply elem_of_step_trace).
  inversion Hing as [e0 Hv Htr|e0 Hv Htr|e0 Hv Htr|e0 Hv Htr|e0 Hv Htr|Hv Htr
                     |docs0 e0 Hv Hd Htr|docs0 chunks0 ids0 e0 Hv Hd Hl Htr
                     |docs0 chunks0 ids0 Hv Hd Hl Htr]; subst;
    rewrite <- Htr in Hsplit'; trace_mem Hsplit';
    injection Hsplit' as -> -> ->;
    (split; [by vm_compute|]); (split; [done|]); (split; [done|]);
    (split; [apply Hin; rewrite <- Htr; rewrite !elem_of_cons; auto 10|]);
    intros chunks ids ra Ha%Hadd; rewrite <- Htr in Ha; trace_mem Ha;
    by injection Ha as -> _ _.
Qed.

End Chunking.

(** * Further properties of the validators *)

(** ** [validate_query] sees the stripped query only *)

Lemma lstrip_id (s : str) :
  (forall c, head s = Some c -> isspace c = false) -> lstrip s = s.
Proof.
  destruct s as [|c s]; [done|]. intros H. simpl. by rewrite (H c eq_refl).
Qed.

Lemma rstrip_id (s : str) :
  (forall c, last s = Some c -> isspace c = false) -> rstrip s = s.
Proof.
  intros H. unfold rstrip. rewrite lstrip_id; [apply reverse_involutive|].
  intros c. rewrite head_reverse. apply H.
Qed.

Lemma strip_idempotent (s : str) : strip (strip s) = strip s.
Proof.
  destruct (strip_no_outer_whitespace s) as [Hh Hl].
  unfold strip at 1. by rewrite lstrip_id, rstrip_id.
Qed.

(** Whitespace around a query changes nothing: a query is validated as
    its stripped form is.  It is accepted exactly when the stripped form
    is not empty and has at most 500 characters, whatever the length of
    the padding. *)
Theorem validate_query_of_stripped (query : str) :
  validate_query query = validate_query (strip query)
  /\ ((exists q, validate_query query = Ok q)
      <-> strip query <> [] /\ length (strip query) <= 500).
Proof.
  split.
  - unfold validate_query. rewrite strip_idempotent.
    destruct query as [|c query]; [done|]. simpl truthy.
    by destruct (truthy (strip (c :: query))).
  - split.
    + intros [q (Hne & Hlen & _)%validate_query_Ok]. done.
    + intros [Hne Hlen]. unfold validate_query.
      destruct query as [|c query]; [done|]. simpl truthy.
      apply truthy_true in Hne. rewrite Hne. cbn [negb orb]. cbv zeta.
      apply Nat.ltb_ge in Hlen.
      change (max_query_length settings) with 500. rewrite Hlen. eauto.
Qed.

Example validate_query_padding :
  validate_query (replicate 400 32%N ++ py "rates?" ++ replicate 400 32%N)
  = Ok (py "rates?").
Proof. vm_compute. reflexivity. Qed.

(** ** Which error [validate_urls] raises *)

Section ValidatorOrder.

Variable urlparse : str -> Res ParseResult.

Lemma validate_urls_loop_good (good rest acc : list str) :
  (forall v, v ∈ good -> validate_url urlparse v = Ok true) ->
  validate_urls_loop urlparse (good ++ rest) acc
  = validate_urls_loop urlparse rest (acc ++ good).
Proof.
  revert acc. induction good as [|g good IH]; intros acc Hgood; simpl.
  - by rewrite app_nil_r.
  - rewrite (Hgood g) by by left.
    rewrite IH by (intros v Hv; apply Hgood; by right).
    by rewrite <- app_assoc.
Qed.

(** The elements are checked in order and before the count: the error is
    that of the first URL [validate_url] turns down, with this URL in its
    message, however many URLs the list has.  The limit of 10 is reported
    only for a list whose URLs are all accepted. *)
Theorem validate_urls_first_offender (good rest : list str) (u : str) e :
  (forall v, v ∈ good -> validate_url urlparse v = Ok true) ->
  validate_url urlparse u = Raise e ->
  validate_urls urlparse (good ++ u :: rest) = Raise e
  /\ (exists cause,
        e = Exn ValidationError
              (py "Error validating URL '" ++ u ++ py "': " ++ cause))
  /\ (10 < length good ->
      validate_urls urlparse good
      = Raise (Exn ValidationError (py "Exceeded maximum allowed URLs: 10"))).
Proof.
  intros Hgood Hu. split; [|split].
  - unfold validate_urls.
    assert (Ht : truthy (good ++ u :: rest) = true) by by destruct good.
    rewrite Ht. simpl negb. cbn iota.
    rewrite validate_urls_loop_good by done. simpl. by rewrite Hu.
  - revert Hu. unfold validate_url.
    destruct (urlparse u) as [p|e0]; simpl.
    + destruct (negb _ || negb _); [intros [= <-]; eauto|].
      destruct (negb _); [intros [= <-]; eauto | done].
    + intros [= <-]; eauto.
  - intros Hlen. unfold validate_urls.
    assert (Ht : truthy good = true) by (destruct good; [simpl in Hlen; lia|done]).
    rewrite Ht. simpl negb. cbn iota.
    pose proof (validate_urls_loop_good good [] [] Hgood) as Hl.
    rewrite app_nil_r in Hl. rewrite Hl. cbn [validate_urls_loop app].
    apply Nat.ltb_lt in Hlen.
    change (max_urls_per_request settings) with 10. rewrite Hlen.
    by vm_compute.
Qed.

End ValidatorOrder.

Lemma validate_urls_first_offender_witness :
  validate_urls urlparse_plain
    ([py "https://a.example"] ++ py "ftp://b.example"
       :: replicate 12 (py "https://c.example"))
  = Raise (Exn ValidationError
             (py "Error validating URL 'ftp://b.example': Unsupported URL scheme: ftp"))
  /\ validate_urls urlparse_plain (replicate 11 (py "https://c.example"))
     = Raise (Exn ValidationError (py "Exceeded maximum allowed URLs: 10")).
Proof.
  split.
  - apply (validate_urls_first_offender urlparse_plain).
    + intros v ->%list_elem_of_singleton. vm_compute. reflexivity.
    + vm_compute. reflexivity.
  - eapply (validate_urls_first_offender urlparse_plain
              (replicate 11 (py "https://c.example")) [] (py "ftp://b.example")).
    + intros v [-> _]%elem_of_replicate. vm_compute. reflexivity.
    + vm_compute. reflexivity.
    + rewrite length_replicate. lia.
Defined.

Example validate_urls_eleven :
  validate_urls urlparse_plain (replicate 11 (py "https://c.example"))
  = Raise (Exn ValidationError (py "Exceeded maximum allowed URLs: 10")).
Proof. vm_compute. reflexivity. Qed.

(** ** [sanitize_input] ([src/utils/validators.py]) *)

(** [MAX_LENGTH] *)
Definition MAX_LENGTH : nat := 2048.

(** Where the first [>] of [s] is, when no line feed comes before it: the
    text [.*?>] matches at the start of [s] ends there. *)
Fixpoint tag_end (s : str) : option nat :=
  match s with
  | [] => None
  | c :: s' =>
      if (c =? 62)%N then Some 0
      else if (c =? 10)%N then None
      else S <$> tag_end s'
  end.

(** [re.sub(r'<.*?>', '', s)], scanning left to right; [skip] characters
    of a match are still to be dropped. *)
Fixpoint remove_tags_from (skip : nat) (s : str) : str :=
  match s with
  | [] => []
  | c :: s' =>
      match skip with
      | S k => remove_tags_from k s'
      | 0 =>
          if (c =? 60)%N then
            match tag_end s' with
            | Some n => remove_tags_from (S n) s'
            | None => c :: remove_tags_from 0 s'
            end
          else c :: remove_tags_from 0 s'
      end
  end.

Definition remove_tags (s : str) : str := remove_tags_from 0 s.

(** The characters of the second pattern: semicolon, double quote, single
    quote, backquote, less-than and greater-than. *)
Definition injection_chars : list char := [59; 34; 39; 96; 60; 62]%N.

(** The text [sanitize_input] has when it turns to the percent-encoding:
    truncated, stripped, without tags and without the injection
    characters. *)
Definition sanitize_input_text (user_input : str) : str :=
  let user_input := strip (take MAX_LENGTH user_input) in
  let user_input := remove_tags user_input in
  re_sub_class injection_chars user_input.

Section SanitizeInput.

(** [urllib.parse.unquote] and [urllib.parse.quote_plus] with
    [safe=':/?&=']: library functions. *)
Variable unquote : str -> Res str.
Variable quote_plus : str -> Res str.

Definition sanitize_input (user_input : str) : Res str :=
  match unquote (sanitize_input_text user_input) with
  | Raise e => Raise e
  | Ok decoded_input => quote_plus decoded_input
  end.

End SanitizeInput.

Example remove_tags_script :
  remove_tags (py "a <b>rent</b> < 5 <i") = py "a rent < 5 <i".
Proof. vm_compute. reflexivity. Qed.

Lemma remove_tags_from_length (skip : nat) (s : str) :
  length (remove_tags_from skip s) <= length s.
Proof.
  revert skip. induction s as [|c s IH]; intros skip; simpl; [done|].
  destruct skip as [|k].
  - destruct (c =? 60)%N.
    + destruct (tag_end s) as [n|]; simpl.
      * specialize (IH (S n)). lia.
      * specialize (IH 0). lia.
    + simpl. specialize (IH 0). lia.
  - specialize (IH k). lia.
Qed.

(** Whatever the two library functions do, the text that is decoded and
    encoded again has at most 2048 characters and no semicolon, quote,
    backquote, less-than or greater-than sign; an input that has none of
    them, no whitespace at its ends and at most 2048 characters is handed
    over as it is. *)
Theorem sanitize_input_text_clean (user_input : str) :
  length (sanitize_input_text user_input) <= 2048
  /\ (forall c, c ∈ injection_chars -> c ∉ sanitize_input_text user_input)
  /\ (length user_input <= 2048 ->
      no_outer_whitespace user_input ->
      (forall c, c ∈ injection_chars -> c ∉ user_input) ->
      sanitize_input_text user_input = user_input).
Proof.
  unfold sanitize_input_text, remove_tags. split; [|split].
  - etrans; [apply re_sub_class_length|].
    etrans; [apply remove_tags_from_length|].
    etrans; [apply strip_length|].
    rewrite length_take. unfold MAX_LENGTH. lia.
  - intros c Hc. by apply re_sub_class_clean.
  - intros Hlen [Hh Hl] Hclean.
    rewrite take_ge by (unfold MAX_LENGTH; lia).
    unfold strip. rewrite lstrip_id, rstrip_id by done.
    assert (Hno : forall s : str, 60%N ∉ s -> remove_tags_from 0 s = s).
    { induction s as [|c s IH]; [done|]. intros Hs. simpl.
      destruct (c =? 60)%N eqn:Hc.
      - apply N.eqb_eq in Hc as ->. exfalso. apply Hs. by left.
      - f_equal. apply IH. intros Hin. apply Hs. by right. }
    rewrite Hno.
    + by apply re_sub_class_id.
    + apply Hclean. unfold injection_chars. set_solver.
Qed.

Lemma sanitize_input_text_clean_witness :
  sanitize_input_text (py "https://example.com/a?b=1")
  = py "https://example.com/a?b=1".
Proof.
  apply (sanitize_input_text_clean (py "https://example.com/a?b=1")).
  - vm_compute. lia.
  - split; intros c Hc; vm_compute in Hc; injection Hc as <-; reflexivity.
  - intros c Hc Hin. revert Hc. apply (bool_decide_unpack _).
    revert c Hin. apply Forall_forall. apply (bool_decide_unpack _).
    vm_compute. exact I.
Defined.

(** ** [sanitize_input] of the sibling package
    ([real_estate_assistant/utils/validators.py]) *)

Module real_estate_assistant.

(** The characters of its pattern: less-than, greater-than, double quote,
    single quote and backquote. *)
Definition suspicious_chars : list char := [60; 62; 34; 39; 96]%N.

Section SanitizeUrl.

Variable urlparse : str -> Res ParseResult.

(** The call of [urlparse] stands outside any [try]: what it raises
    leaves the function as it is. *)
Definition sanitize_input (url : str) : Res str :=
  let url := strip url in
  match urlparse url with
  | Raise e => Raise e
  | Ok parsed =>
      if negb (truthy (scheme parsed)) || negb (truthy (netloc parsed)) then
        Raise (Exn ValidationError (py "Invalid URL: missing scheme or host"))
      else
        let url := re_sub_class suspicious_chars url in
        Ok (take 1000 url)
  end.

(** A URL that is returned was parsed, stripped of its outer whitespace,
    with a scheme and a host, whatever the scheme; it comes back without
    the five suspicious characters and cut to 1000 characters, and
    unchanged when it has none of them and is short enough.  An error
    of [urlparse] itself is not turned into a [ValidationError]. *)
Theorem sanitize_url_returns (url r : str) :
  sanitize_input url = Ok r ->
  (exists parsed, urlparse (strip url) = Ok parsed
                  /\ scheme parsed <> [] /\ netloc parsed <> [])
  /\ r = take 1000 (re_sub_class suspicious_chars (strip url))
  /\ length r <= 1000
  /\ (forall c, c ∈ suspicious_chars -> c ∉ r)
  /\ ((forall c, c ∈ suspicious_chars -> c ∉ strip url) ->
      length (strip url) <= 1000 -> r = strip url).
Proof.
  unfold sanitize_input.
  destruct (urlparse (strip url)) as [parsed|e]; [|done].
  destruct (truthy (scheme parsed)) eqn:Hs; [|done].
  destruct (truthy (netloc parsed)) eqn:Hn; [|done].
  simpl. intros [= <-].
  apply truthy_true in Hs, Hn.
  split; [eauto|]. split; [done|]. split; [|split].
  - rewrite length_take. lia.
  - intros c Hc Hin. apply elem_of_take in Hin as (i & Hin & _).
    apply list_elem_of_lookup_2 in Hin.
    by apply (re_sub_class_clean suspicious_chars (strip url) c).
  - intros Hclean Hlen. rewrite re_sub_class_id by done. by apply take_ge.
Qed.


End SanitizeUrl.

End real_estate_assistant.

Lemma sanitize_url_returns_witness :
  real_estate_assistant.sanitize_input urlparse_plain
    (py "  ftp://files.example/it's ")
  = Ok (py "ftp://files.example/its")
  /\ length (py "ftp://files.example/its") <= 1000.
Proof.
  assert (H : real_estate_assistant.sanitize_input urlparse_plain
                (py "  ftp://files.example/it's ")
              = Ok (py "ftp://files.example/its")) by (vm_compute; reflexivity).
  split; [exact H|].
  exact (proj1 (proj2 (proj2
    (real_estate_assistant.sanitize_url_returns urlparse_plain _ _ H)))).
Defined.


(** * Further properties of the service *)

(** ** Failures of the constructors *)

(** The three handles are set. *)
Definition ready (svc : RAGService) : Prop :=
  is_Some (_llm svc) /\ is_Some (_embeddings svc) /\ is_Some (_vector_store svc).

(** The flag tells the truth: a service marked as initialised has its
    three handles. *)
Definition consistent (svc : RAGService) : Prop :=
  _initialized svc = true -> ready svc.

(** No handle is dropped or replaced, and the flag is not taken back. *)
Definition never_forgets (a b : RAGService) : Prop :=
  (forall h, _llm a = Some h -> _llm b = Some h)
  /\ (forall h, _embeddings a = Some h -> _embeddings b = Some h)
  /\ (forall h, _vector_store a = Some h -> _vector_store b = Some h)
  /\ (_initialized a = true -> _initialized b = true).

Lemma never_forgets_refl a : never_forgets a a.
Proof. by repeat split. Qed.

Lemma never_forgets_trans a b c :
  never_forgets a b -> never_forgets b c -> never_forgets a c.
Proof.
  intros (H1 & H2 & H3 & H4) (K1 & K2 & K3 & K4). repeat split; auto.
Qed.

Lemma keeps_handles_never_forgets a b : keeps_handles a b -> never_forgets a b.
Proof. intros (H1 & H2 & H3 & H4). repeat split; auto. congruence. Qed.

Lemma keeps_handles_consistent a b :
  keeps_handles a b -> consistent a -> consistent b.
Proof.
  intros (H1 & H2 & H3 & H4) Hc Hb. rewrite H4 in Hb.
  destruct (Hc Hb) as ([h1 ?] & [h2 ?] & [h3 ?]).
  repeat split; eexists; eauto.
Qed.

Section Failures.

Context {X : Type} (ext : Externals X).

(** A property access that fails leaves its field empty, so that the next
    access calls the constructor again; the exception is the one the
    property documents, with the constructor's message after its own. *)
Lemma llm_failure s s' evs e :
  llm ext s = (s', evs, Raise e) ->
  _llm (self s') = None
  /\ exists e0, EvNew ChatGroq (Raise e0) ∈ evs
                /\ e = Exn LLMError (py "LLM initialization failed: " ++ exc_str e0).
Proof.
  unfold_service. destruct (_llm (self s)) as [h0|] eqn:Hl; [done|].
  destruct (ChatGroq_new ext (outside s)) as [x' [[]|e0]];
    simpl; intros [= <- <- <-]; simpl.
  split; [done|]. exists e0. split; [by left | done].
Qed.

Lemma embeddings_failure s s' evs e :
  embeddings ext s = (s', evs, Raise e) ->
  _embeddings (self s') = None
  /\ exists e0, EvNew HuggingFaceEmbeddings (Raise e0) ∈ evs
                /\ e = Exn VectorStoreError
                         (py "Embeddings initialization failed: " ++ exc_str e0).
Proof.
  unfold_service. destruct (_embeddings (self s)) as [h0|] eqn:Hl; [done|].
  destruct (HuggingFaceEmbeddings_new ext (outside s)) as [x' [[]|e0]];
    simpl; intros [= <- <- <-]; simpl.
  split; [done|]. exists e0. split; [by left | done].
Qed.

Lemma embeddings_other_fields s s' evs r :
  embeddings ext s = (s', evs, r) ->
  _llm (self s') = _llm (self s)
  /\ _vector_store (self s') = _vector_store (self s)
  /\ _initialized (self s') = _initialized (self s).
Proof.
  unfold_service. destruct (_embeddings (self s)) as [h0|].
  - by intros [= <- <- <-].
  - destruct (HuggingFaceEmbeddings_new ext (outside s)) as [x' [[]|e0]];
      simpl; by intros [= <- <- <-].
Qed.

Lemma vector_store_failure s s' evs e :
  vector_store ext s = (s', evs, Raise e) ->
  _vector_store (self s') = None
  /\ exists cause,
       e = Exn VectorStoreError
             (py "Vector store initialization failed: " ++ cause).
Proof.
  unfold vector_store.
  intros (s0 & ev0 & r0 & [= <- <- <-] & (evb & H & ->))%bind_inv.
  revert H. simpl.
  destruct (_vector_store (self s)) as [h0|] eqn:Hv; [done|].
  intros (s1 & ev1 & r1 & Hbody & Hr)%try_except_inv.
  apply bind_inv in Hbody as (s2 & ev2 & r2 & Hemb & Hk).
  apply embeddings_other_fields in Hemb as (_ & Hv2 & _).
  rewrite Hv in Hv2.
  destruct r2 as [he|e2].
  - destruct Hk as (ev3 & Hk & ->). revert Hk. unfold_service.
    destruct (Chroma_new ext (outside s2)) as [x' [[]|e0]];
      simpl; intros [= <- <- <-]; simpl in *.
    + by destruct Hr as (_ & _ & ?).
    + destruct Hr as (ev4 & [= <- <- <-] & ->). simpl. eauto.
  - destruct Hk as (-> & -> & ->).
    destruct Hr as (ev4 & [= <- <- <-] & ->). eauto.
Qed.

(** What [initialize] does to the service: nothing when the flag is set;
    otherwise it keeps every handle that was there, sets the flag and has
    the three handles when it returns, and leaves the flag unset when it
    raises. *)
Lemma initialize_cases s s' evs r :
  initialize ext s = (s', evs, r) ->
  (_initialized (self s) = true /\ s' = s /\ r = Ok tt)
  \/ (_initialized (self s) = false
      /\ never_forgets (self s) (self s')
      /\ match r with
         | Ok _ => _initialized (self s') = true /\ ready (self s')
         | Raise e =>
             _initialized (self s') = false
             /\ (exc_class e = LLMError \/ exc_class e = VectorStoreError)
         end).
Proof.
  unfold initialize. intros H.
  apply bind_inv in H as (? & ? & ? & [= <- <- <-] & (ev0 & H & ->)).
  apply bind_inv in H as (? & ? & ? & [= <- <- <-] & (ev1 & H & ->)).
  simpl in H. destruct (_initialized (self s)) eqn:Hi.
  { injection H as <- <- <-. by left. }
  right. split; [done|].
  apply bind_inv in H as (? & ? & ? & [= <- <- <-] & (ev2 & H & ->)).
  apply bind_inv in H as (s1 & evl & rl & Hllm & H).
  pose proof (llm_spec ext _ _ _ _ Hllm) as (_ & _ & Hk1 & Hs1 & _).
  destruct rl as [hl|e]; cycle 1.
  { destruct H as (-> & -> & ->).
    apply llm_failure in Hllm as (_ & e0 & _ & ->).
    split; [by apply keeps_handles_never_forgets|].
    destruct Hk1 as (_ & _ & _ & ->). split; [done | by left]. }
  destruct H as (ev3 & H & ->).
  apply bind_inv in H as (s2 & eve & re & Hemb & H).
  pose proof (embeddings_spec ext _ _ _ _ Hemb) as (_ & _ & Hk2 & Hs2 & _).
  pose proof (keeps_handles_trans _ _ _ Hk1 Hk2) as Hk12.
  destruct re as [he|e]; cycle 1.
  { destruct H as (-> & -> & ->).
    apply embeddings_failure in Hemb as (_ & e0 & _ & ->).
    split; [by apply keeps_handles_never_forgets|].
    destruct Hk12 as (_ & _ & _ & ->). split; [done | by right]. }
  destruct H as (ev4 & H & ->).
  apply bind_inv in H as (s3 & evv & rv & Hvs & H).
  pose proof (vector_store_spec ext _ _ _ _ Hvs) as (_ & _ & Hk3 & Hs3 & _).
  pose proof (keeps_handles_trans _ _ _ Hk12 Hk3) as Hk123.
  destruct rv as [hv|e]; cycle 1.
  { destruct H as (-> & -> & ->).
    apply vector_store_failure in Hvs as (_ & cause & ->).
    split; [by apply keeps_handles_never_forgets|].
    destruct Hk123 as (_ & _ & _ & ->). split; [done | by right]. }
  destruct H as (ev5 & H & ->).
  revert H. unfold set_initialized, logger_info, bind, get_self, put_self, emit.
  simpl. intros [= <- <- <-]. simpl.
  destruct Hk123 as (L & E & V & _), Hk2 as (L2 & _), Hk3 as (L3 & E3 & _).
  split; [by repeat split; simpl; auto|].
  split; [done|]. repeat split; simpl.
  - exists hl. apply L3, L2, Hs1. done.
  - exists he. apply E3, Hs2. done.
  - exists hv. by apply Hs3.
Qed.


End Failures.

(** A language model whose constructor fails. *)
Definition stub_without_llm : Externals nat := {|
  urlparse := urlparse_plain;
  ChatGroq_new := fun x =>
    (x, Raise (Exn (BuiltinException (py "GroqError")) (py "no API key")));
  HuggingFaceEmbeddings_new := fun x => (x, Ok tt);
  Chroma_new := fun x => (x, Ok tt);
  Chroma_reset_collection := fun x => (x, Ok tt);
  Chroma_add_documents := fun _ _ x => (x, Ok tt);
  UnstructuredURLLoader_load := fun urls x => (x, one_page_each urls);
  split_documents := fun _ docs => Ok docs;
  uuid4 := fun x => (S x, py "uuid-" ++ str_of_nat x);
  RetrievalQAWithSourcesChain_from_llm := fun x => (x, Ok tt);
  chain_invoke := fun _ _ x => (x, Ok ∅)
|}.


(** ** The service across [process_urls] *)

(** The status messages of a complete run. *)
Definition status_messages : list str :=
  [msg_initializing; msg_resetting; msg_loading; msg_splitting; msg_adding;
   msg_success].

(** The messages a run yields, in order. *)
Definition yielded (evs : list Event) : list str :=
  omap (fun ev => match ev with EvYield m => Some m | _ => None end) evs.

Lemma yielded_app evs1 evs2 : yielded (evs1 ++ evs2) = yielded evs1 ++ yielded evs2.
Proof. apply omap_app. Qed.

Lemma yielded_step_trace evs : yielded (step_trace evs) = yielded evs.
Proof.
  induction evs as [|ev evs IH]; [done|].
  unfold step_trace in *. simpl.
  destruct ev; simpl; by rewrite ?IH.
Qed.

Lemma yielded_uuids (ids : list str) : yielded (EvUuid4 <$> ids) = [].
Proof. by induction ids. Qed.

Lemma validate_urls_Raise_class urlparse (urls : list str) e :
  validate_urls urlparse urls = Raise e -> exc_class e = ValidationError.
Proof.
  unfold validate_urls. destruct (negb (truthy urls)); [by intros [= <-]|].
  destruct (validate_urls_loop urlparse urls []) as [valid|e0] eqn:Hl.
  - destruct (_ <? _); [by intros [= <-]|].
    destruct (negb _); [by intros [= <-] | done].
  - intros [= <-]. by apply validate_urls_loop_Raise in Hl as [? _].
Qed.

Section ServiceAcrossIngestion.

Context {X : Type} (ext : Externals X).

(** The fields of the service after a run of the body are those that
    [initialize] and then one access to [vector_store] leave. *)
Lemma process_urls_body_self (urls : list str) s s' evs r :
  process_urls_body ext urls s = (s', evs, r) ->
  (exists e, validate_urls (urlparse ext) urls = Raise e
             /\ s' = s /\ r = Raise e /\ evs = [EvValidateUrls urls (Raise e)])
  \/ (exists s1 evi ri, initialize ext s = (s1, evi, ri) /\
        match ri with
        | Raise e => s' = s1 /\ r = Raise e
        | Ok _ =>
            exists s3 evv rv, vector_store ext s1 = (s3, evv, rv)
                              /\ self s' = self s3
                              /\ (r = Ok tt -> exists vs, rv = Ok vs)
        end).
Proof.
  unfold process_urls_body. intros H.
  prim H.
  apply bind_inv in H as (? & ? & rv & [= <- <- <-] & H).
  destruct (validate_urls (urlparse ext) urls) as [valid|e] eqn:Hval; cycle 1.
  { destruct H as (-> & -> & ->). left. by exists e. }
  right. destruct H as (? & H & ->).
  prim H. prim H.
  apply bind_inv in H as (s1 & evi & ri & Hinit & H).
  exists s1, evi, ri. split; [done|].
  destruct ri as [[]|e]; cycle 1.
  { by destruct H as (-> & -> & ->). }
  destruct H as (? & H & ->).
  prim H.
  apply bind_inv in H as (s2 & evr & rr & Hreset & H).
  with_block Hreset Hblock.
  apply bind_inv in Hblock as (s3 & evv & rvs & Hvs & Hk).
  exists s3, evv, rvs. split; [done|].
  pose proof (vector_store_spec ext _ _ _ _ Hvs) as (_ & _ & _ & Hsv & _).
  destruct rvs as [vs|e]; cycle 1.
  { destruct Hk as (-> & -> & ->). destruct H as (-> & -> & ->). by split. }
  destruct Hk as (evreset & Hreset & ->).
  apply reset_collection_inv in Hreset as (-> & Hself2 & _).
  destruct rr as [[]|e]; cycle 1.
  { destruct H as (-> & -> & ->). by split. }
  destruct H as (? & H & ->).
  prim H.
  apply bind_inv in H as (s4 & evl & rl & Hload & H).
  with_block Hload Hblock.
  apply load_inv in Hblock as (-> & Hself4 & _).
  destruct rl as [docs|e]; cycle 1.
  { destruct H as (-> & -> & ->). split; [congruence | done]. }
  destruct H as (? & H & ->).
  apply bind_inv in H as (? & ? & rg & Hguard & H).
  destruct docs as [|d docs]; simpl in Hguard.
  { injection Hguard as <- <- <-. destruct H as (-> & -> & ->).
    split; [congruence | done]. }
  injection Hguard as <- <- <-. destruct H as (? & H & ->).
  prim H. prim H.
  apply bind_inv in H as (s5 & evsp & rs & Hsplit & H).
  with_block Hsplit Hblock.
  apply split_inv in Hblock as (-> & ->).
  destruct rs as [chunks|e]; cycle 1.
  { destruct H as (-> & -> & ->). split; [congruence | done]. }
  destruct H as (? & H & ->).
  prim H. prim H.
  apply bind_inv in H as (s6 & eva & ra & Hadd & H).
  with_block Hadd Hblock.
  apply bind_inv in Hblock as (s7 & evu & ru & Hu & Hk).
  apply new_uuids_inv in Hu as (ids & -> & -> & Hlen & Hself7 & _).
  destruct Hk as (? & Hk & ->).
  apply bind_inv in Hk as (s8 & ev8 & rvs2 & Hvs2 & Hk).
  rewrite (vector_store_cached ext s7 vs) in Hvs2
    by (rewrite Hself7, Hself4, Hself2; by apply Hsv).
  injection Hvs2 as <- <- <-. destruct Hk as (? & Hk & ->).
  apply add_documents_inv in Hk as (-> & Hself8 & _).
  destruct ra as [[]|e]; cycle 1.
  { destruct H as (-> & -> & ->). split; [congruence | done]. }
  destruct H as (? & H & ->).
  revert H. unfold bind, yield, logger_info, emit. intros [= <- <- <-].
  split; [congruence | eauto].
Qed.

Lemma process_urls_same_state (urls : list str) s s' evs r :
  process_urls ext urls s = (s', evs, r) ->
  exists evs0 r0, process_urls_body ext urls s = (s', evs0, r0)
                  /\ (r = Ok tt <-> r0 = Ok tt).
Proof.
  rewrite process_urls_run.
  destruct (process_urls_body ext urls s) as [[s1 ev1] [[]|e1]];
    intros [= <- <- <-]; eauto 10.
  eexists _, _. split; [done|]. split; discriminate.
Qed.

Lemma process_urls_service_facts (urls : list str) s s' evs r :
  process_urls ext urls s = (s', evs, r) ->
  never_forgets (self s) (self s')
  /\ (consistent (self s) -> consistent (self s'))
  /\ (r = Ok tt ->
      _initialized (self s') = true /\ is_Some (_vector_store (self s'))).
Proof.
  intros (evs0 & r0 & Hbody & Hr)%process_urls_same_state.
  apply process_urls_body_self in Hbody
    as [(e & _ & -> & -> & _)|(s1 & evi & ri & Hinit & Hrest)].
  { split; [apply never_forgets_refl|]. split; [done|].
    intros Hok. by apply Hr in Hok. }
  apply initialize_cases in Hinit
    as [(Hflag & -> & ->)|(Hflag & Hnf & Hri)].
  - destruct Hrest as (s3 & evv & rv & Hvs & Hself & Hok).
    apply vector_store_spec in Hvs as (_ & _ & Hk & Hsv & _).
    rewrite Hself. split; [by apply keeps_handles_never_forgets|].
    split; [by apply keeps_handles_consistent|].
    intros [vs ->]%Hr%Hok. destruct Hk as (_ & _ & _ & ->).
    split; [done|]. exists vs. by apply Hsv.
  - destruct ri as [[]|e].
    + destruct Hri as (Hflag1 & Hready).
      destruct Hrest as (s3 & evv & rv & Hvs & Hself & Hok).
      apply vector_store_spec in Hvs as (_ & _ & Hk & Hsv & _).
      rewrite Hself.
      split; [eapply never_forgets_trans;
              [done | by apply keeps_handles_never_forgets]|].
      split.
      * intros _. apply (keeps_handles_consistent _ _ Hk). by intros _.
      * intros [vs ->]%Hr%Hok. destruct Hk as (_ & _ & _ & ->).
        split; [done|]. exists vs. by apply Hsv.
    + destruct Hrest as (-> & ->), Hri as (Hflag1 & _).
      split; [done|]. split.
      * intros _ Habs. congruence.
      * intros Hok. apply Hr in Hok. discriminate.
Qed.

(** No run of [process_urls], however it ends, drops or replaces a
    handle of the service or takes the flag back, and a service whose flag
    tells the truth stays such.  After a run that completes the service
    is initialised: the flag is set and the vector store handle is there,
    so that [generate_answer] no longer refuses to answer. *)
Theorem process_urls_keeps_the_service (urls : list str) s s' evs r :
  process_urls ext urls s = (s', evs, r) ->
  never_forgets (self s) (self s')
  /\ (consistent (self s) -> consistent (self s'))
  /\ (r = Ok tt ->
      _initialized (self s') = true /\ is_Some (_vector_store (self s'))).
Proof. apply process_urls_service_facts. Qed.

(** A list that [validate_urls] turns down costs nothing: [process_urls]
    raises a [URLProcessingError] that carries the validation message,
    before it has yielded a message, and the service, the collection and
    the outside are as they were. *)
Theorem process_urls_rejected_list (urls : list str) e s :
  validate_urls (urlparse ext) urls = Raise e ->
  exists evs,
    process_urls ext urls s
    = (s, evs,
       Raise (Exn URLProcessingError (py "URL processing failed: " ++ exc_str e)))
    /\ yielded evs = []
    /\ step_trace evs = [EvValidateUrls urls (Raise e)].
Proof.
  intros Hval. rewrite process_urls_run.
  unfold process_urls_body, bind, emit, of_res. rewrite Hval.
  assert (Hi : isinstance e [URLProcessingError; VectorStoreError] = false).
  { apply validate_urls_Raise_class in Hval.
    destruct (isinstance e _) eqn:Hi; [|done].
    apply isinstance_URLProcessing_or_VectorStore in Hi. destruct Hi; congruence. }
  rewrite Hi. eexists. split; [reflexivity|]. done.
Qed.

(** What a consumer of the generator sees: every run yields the first
    messages of the six, in their order, and it yields all six exactly
    when it completes. *)
Theorem process_urls_yields_a_prefix (urls : list str) s s' evs r :
  process_urls ext urls s = (s', evs, r) ->
  yielded evs `prefix_of` status_messages
  /\ (r = Ok tt <-> yielded evs = status_messages).
Proof.
  intros (r0 & Hing & Hr)%process_urls_runs.
  rewrite <- yielded_step_trace.
  inversion Hing as [e0 Hv Htr|e0 Hv Htr|e0 Hv Htr|e0 Hv Htr|e0 Hv Htr|Hv Htr
                     |docs e0 Hv Hd Htr|docs chunks ids e0 Hv Hd Hl Htr
                     |docs chunks ids Hv Hd Hl Htr]; subst;
    try rewrite <- Htr;
    unfold steps_to_add, steps_to_load, steps_to_reset, status_messages;
    repeat (progress (rewrite ?yielded_app, ?yielded_uuids; simpl)).
  9: { subst r. split; [done|]. by split. }
  all: destruct Hr as (e & -> & _).
  all: split; [by eexists|].
  all: split; [discriminate|].
  all: intros Heq; apply (f_equal length) in Heq; discriminate Heq.
Qed.

Lemma process_urls_collection_facts (urls : list str) s s' evs :
  process_urls ext urls s = (s', evs, Ok tt) ->
  exists docs chunks ids,
    EvSplit splitter_config docs (Ok chunks) ∈ evs
    /\ EvUuid4 <$> ids `sublist_of` evs
    /\ length ids = length chunks
    /\ collection s' = zip ids chunks
    /\ length (collection s') = length chunks.
Proof.
  intros (r0 & Hing & Hr)%process_urls_runs.
  assert (Hin : forall ev, ev ∈ step_trace evs -> ev ∈ evs)
    by (intros ev Hev; by apply elem_of_step_trace in Hev as [? _]).
  assert (Hsub : step_trace evs `sublist_of` evs).
  { clear. unfold step_trace. induction evs as [|ev evs IH]; [done|]. simpl.
    destruct (negb (is_quiet ev)); [by apply sublist_skip | by apply sublist_cons]. }
  inversion Hing as [e0 Hv Htr|e0 Hv Htr|e0 Hv Htr|e0 Hv Htr|e0 Hv Htr|Hv Htr
                     |docs e0 Hv Hd Htr|docs chunks ids e0 Hv Hd Hl Htr
                     |docs chunks ids Hv Hd Hl Htr]; subst;
    try (by destruct Hr as (? & ? & _)).
  exists docs, chunks, ids. split; [|split; [|split; [done|split; [done|]]]].
  - apply Hin. rewrite <- Htr. rewrite !elem_of_cons. auto 20.
  - etrans; [|exact Hsub]. rewrite <- Htr.
    do 10 apply sublist_cons. by apply sublist_inserts_r.
  - rewrite length_zip. lia.
Qed.

(** A run that completes replaces the collection: whatever it held, it
    now holds the chunks the splitter returned, each under the UUID drawn
    for it, and nothing else. *)
Theorem process_urls_replaces_the_collection (urls : list str) s s' evs :
  process_urls ext urls s = (s', evs, Ok tt) ->
  exists docs chunks ids,
    EvSplit splitter_config docs (Ok chunks) ∈ evs
    /\ EvUuid4 <$> ids `sublist_of` evs
    /\ length ids = length chunks
    /\ collection s' = zip ids chunks
    /\ length (collection s') = length chunks.
Proof. apply process_urls_collection_facts. Qed.

End ServiceAcrossIngestion.

Lemma process_urls_keeps_the_service_witness :
  let run := process_urls (stub one_page_each (Ok ∅))
               [py "https://example.com"] fresh_state in
  never_forgets (self fresh_state) (self run.1.1)
  /\ _initialized (self run.1.1) = true.
Proof.
  assert (Hr : (process_urls (stub one_page_each (Ok ∅))
                  [py "https://example.com"] fresh_state).2 = Ok tt)
    by (vm_compute; reflexivity).
  destruct (process_urls (stub one_page_each (Ok ∅))
              [py "https://example.com"] fresh_state) as [[s' evs] r] eqn:Hrun.
  simpl in *.
  destruct (process_urls_keeps_the_service _ _ _ _ _ _ Hrun) as (Hnf & _ & Hok).
  split; [exact Hnf | exact (proj1 (Hok Hr))].
Defined.

Lemma process_urls_rejected_list_witness :
  exists evs,
    process_urls (stub one_page_each (Ok ∅)) [py "example.com"] used_state
    = (used_state, evs,
       Raise (Exn URLProcessingError
                (py "URL processing failed: " ++
                 py "Error validating URL 'example.com': Invalid URL: example.com")))
    /\ yielded evs = []
    /\ step_trace evs
       = [EvValidateUrls [py "example.com"]
            (Raise (Exn ValidationError
               (py "Error validating URL 'example.com': Invalid URL: example.com")))].
Proof.
  apply (process_urls_rejected_list (stub one_page_each (Ok ∅))
           [py "example.com"]
           (Exn ValidationError
              (py "Error validating URL 'example.com': Invalid URL: example.com"))).
  vm_compute. reflexivity.
Defined.

Lemma process_urls_yields_a_prefix_witness :
  yielded (process_urls (stub unreachable (Ok ∅))
             [py "https://example.com"] fresh_state).1.2
  `prefix_of` status_messages
  /\ yielded (process_urls (stub unreachable (Ok ∅))
                [py "https://example.com"] fresh_state).1.2
     = [msg_initializing; msg_resetting; msg_loading].
Proof.
  split; [|vm_compute; reflexivity].
  destruct (process_urls (stub unreachable (Ok ∅))
              [py "https://example.com"] fresh_state) as [[s' evs] r] eqn:Hrun.
  exact (proj1 (process_urls_yields_a_prefix _ _ _ _ _ _ Hrun)).
Defined.

Lemma process_urls_replaces_the_collection_witness :
  let run := process_urls (stub one_page_each (Ok ∅))
               [py "https://a.example"; py "https://b.example"] used_state in
  length (collection used_state) = 1
  /\ length (collection run.1.1) = 2
  /\ exists docs chunks ids,
       length ids = length chunks /\ collection run.1.1 = zip ids chunks
       /\ EvSplit splitter_config docs (Ok chunks) ∈ run.1.2.
Proof.
  assert (Hr : (process_urls (stub one_page_each (Ok ∅))
                  [py "https://a.example"; py "https://b.example"] used_state).2
               = Ok tt
               /\ length (collection (process_urls (stub one_page_each (Ok ∅))
                  [py "https://a.example"; py "https://b.example"]
                  used_state).1.1) = 2)
    by (vm_compute; split; reflexivity).
  destruct (process_urls (stub one_page_each (Ok ∅))
              [py "https://a.example"; py "https://b.example"] used_state)
    as [[s' evs] r] eqn:Hrun.
  simpl in *. destruct Hr as [-> Hlen].
  split; [reflexivity|]. split; [exact Hlen|].
  destruct (process_urls_replaces_the_collection _ _ _ _ _ Hrun)
    as (docs & chunks & ids & Hs & _ & Hl & Hc & _).
  by exists docs, chunks, ids.
Defined.

(** ** What [generate_answer] touches *)

(** The collection is what it was, no handle is dropped or replaced and
    the flag is what it was. *)
Definition untouched {X : Type} (s s' : State X) : Prop :=
  collection s' = collection s /\ keeps_handles (self s) (self s').

Lemma untouched_refl {X : Type} (s : State X) : untouched s s.
Proof. split; [done | apply keeps_handles_refl]. Qed.

Lemma untouched_trans {X : Type} (a b c : State X) :
  untouched a b -> untouched b c -> untouched a c.
Proof.
  intros [H1 H2] [K1 K2]. split; [congruence|].
  by apply (keeps_handles_trans _ (self b)).
Qed.

Lemma untouched_same {X : Type} (s s' : State X) :
  collection s' = collection s -> self s' = self s -> untouched s s'.
Proof. intros Hc Hs. split; [done|]. rewrite Hs. apply keeps_handles_refl. Qed.

Section Answering.

Context {X : Type} (ext : Externals X).

Lemma from_llm_inv l vs s s' evs r :
  from_llm ext l vs s = (s', evs, r) ->
  evs = [EvFromLlm l vs r] /\ self s' = self s /\ collection s' = collection s.
Proof.
  unfold from_llm, bind, call_outside, emit, of_res.
  destruct (RetrievalQAWithSourcesChain_from_llm ext (outside s)) as [x' r'].
  simpl. by intros [= <- <- <-].
Qed.

Lemma invoke_state question s s' evs r :
  invoke ext question s = (s', evs, r) ->
  self s' = self s /\ collection s' = collection s
  /\ exists x', chain_invoke ext question (collection s) (outside s) = (x', r).
Proof.
  unfold invoke, bind, get_collection, call_outside, emit, of_res.
  destruct (chain_invoke ext question (collection s) (outside s)) as [x' r'].
  simpl. intros [= <- <- <-]. eauto.
Qed.

Lemma generate_answer_not_initialized (query q : str) s :
  validate_query query = Ok q ->
  _initialized (self s) = false \/ _vector_store (self s) = None ->
  exists evs,
    generate_answer ext query s
    = (s, evs,
       Raise (Exn VectorStoreError
                (py "Vector store not initialized. Please process URLs first."))).
Proof.
  intros Hq Hun. rewrite generate_answer_run.
  unfold generate_answer_body, bind, of_res, logger_info, emit, get_self,
    raise, ret.
  rewrite Hq.
  assert (Hc : negb (_initialized (self s))
               || bool_decide (_vector_store (self s) = None) = true).
  { destruct Hun as [-> | ->]; [done|]. by rewrite orb_true_r. }
  rewrite Hc. simpl. eauto.
Qed.

Lemma generate_answer_body_untouched (query : str) s s' evs r :
  generate_answer_body ext query s = (s', evs, r) -> untouched s s'.
Proof.
  unfold generate_answer_body.
  intros (? & ? & rq & [= <- <- <-] & H)%bind_inv.
  destruct (validate_query query) as [q|eq]; cycle 1.
  { destruct H as (-> & _). apply untouched_refl. }
  destruct H as (ev0 & H & ->).
  prim H. prim H.
  apply bind_inv in H as (s2 & ev4 & r4 & Hguard & H).
  assert (s2 = s) as ->.
  { revert Hguard. destruct (negb _ || _); by intros [= <- _ _]. }
  destruct r4 as [[]|e4]; cycle 1.
  { destruct H as (-> & _). apply untouched_refl. }
  destruct H as (ev5 & H & ->).
  with_block H Hblock.
  apply bind_inv in Hblock as (s4 & ev7 & rl & Hllm & H).
  apply llm_spec in Hllm as (_ & Hc4 & Hk4 & _).
  assert (U4 : untouched s s4) by done.
  destruct rl as [hl|e7]; [|by destruct H as (-> & _)].
  destruct H as (ev8 & H & ->).
  apply bind_inv in H as (s5 & ev9 & rv & Hvs & H).
  apply vector_store_spec in Hvs as (_ & Hc5 & Hk5 & _).
  assert (U5 : untouched s s5) by (apply (untouched_trans _ s4); done).
  destruct rv as [hv|e9]; [|by destruct H as (-> & _)].
  destruct H as (ev10 & H & ->).
  apply bind_inv in H as (s6 & ev11 & rf & Hfrom & H).
  apply from_llm_inv in Hfrom as (_ & Hs6 & Hc6).
  assert (U6 : untouched s s6)
    by (apply (untouched_trans _ s5); [done | by apply untouched_same]).
  destruct rf as [[]|e11]; [|by destruct H as (-> & _)].
  destruct H as (ev12 & H & ->).
  apply bind_inv in H as (s7 & ev13 & ri & Hinv & H).
  apply invoke_state in Hinv as (Hs7 & Hc7 & _).
  assert (U7 : untouched s s7)
    by (apply (untouched_trans _ s6); [done | by apply untouched_same]).
  destruct ri as [result|e13]; [|by destruct H as (-> & _)].
  destruct H as (ev14 & H & ->).
  revert H. unfold bind, logger_info, emit, ret. by intros [= <- _ _].
Qed.

(** [generate_answer] reads the collection and never writes it: after
    every call, however it ends, the collection holds what it held, no
    handle of the service has been dropped or replaced and the flag is
    what it was. *)
Theorem generate_answer_touches_nothing (query : str) s s' evs r :
  generate_answer ext query s = (s', evs, r) ->
  collection s' = collection s /\ keeps_handles (self s) (self s').
Proof.
  rewrite generate_answer_run.
  destruct (generate_answer_body ext query s) as [[s1 ev1] r1] eqn:Hbody.
  apply generate_answer_body_untouched in Hbody.
  by destruct r1; intros [= <- _ _].
Qed.

(** On an initialised service that has its handles, a call with an
    accepted query constructs nothing and changes no field of the
    service: it builds the chain from the stored handles, and when the
    chain is built it invokes it on the cleaned query and the collection
    as it stands; the answer is the chain's, with the defaults for a
    missing key, and an exception of the chain comes back as an
    [LLMError] unless it is one or is a [VectorStoreError]. *)
Theorem generate_answer_when_ready (query q : str) s l vs :
  validate_query query = Ok q ->
  _initialized (self s) = true ->
  _llm (self s) = Some l -> _vector_store (self s) = Some vs ->
  exists s' evs r,
    generate_answer ext query s = (s', evs, r)
    /\ self s' = self s /\ collection s' = collection s
    /\ created evs = []
    /\ (exists rf, EvFromLlm l vs rf ∈ evs)
    /\ (forall x1, RetrievalQAWithSourcesChain_from_llm ext (outside s) = (x1, Ok tt) ->
        forall x2 result, chain_invoke ext q (collection s) x1 = (x2, Ok result) ->
        r = Ok (default (py "No answer generated") (result !! py "answer"),
                default (py "No sources found") (result !! py "sources"))).
Proof.
  intros Hq Hflag Hl Hv. rewrite generate_answer_run.
  unfold generate_answer_body.
  unfold bind at 1. unfold of_res at 1. rewrite Hq.
  unfold bind at 1. unfold logger_info at 1. unfold emit at 1.
  unfold bind at 1. unfold get_self at 1.
  unfold bind at 1. rewrite Hflag, Hv.
  rewrite bool_decide_eq_false_2 by done. unfold ret at 1.
  cbn [negb orb]. cbv beta iota.
  rewrite error_handler_run.
  unfold bind at 1. rewrite (llm_cached ext s l Hl).
  unfold bind at 1. rewrite (vector_store_cached ext s vs Hv).
  unfold bind at 1. unfold from_llm, invoke, bind, call_outside, emit, of_res,
    get_collection, logger_info, ret.
  destruct (RetrievalQAWithSourcesChain_from_llm ext (outside s))
    as [x1 [[]|ef]] eqn:Hfrom; simpl.
  - destruct (chain_invoke ext q (collection s) x1) as [x2 [result|ei]] eqn:Hinv;
      simpl.
    + eexists _, _, _. split; [reflexivity|]. simpl.
      split; [done|]. split; [done|]. split; [done|].
      split; [eexists; rewrite !elem_of_cons; auto 10|].
      intros y1 [= <-] y2 result'. rewrite Hinv. by intros [= <- <-].
    + eexists _, _, _;
        (split; [reflexivity|]); simpl;
        (split; [done|]); (split; [done|]); (split; [done|]);
        (split; [eexists; rewrite !elem_of_cons; auto 10|]);
        intros y1 [= <-] y2 result'; rewrite Hinv; by intros [=].
  - eexists _, _, _;
      (split; [reflexivity|]); simpl;
      (split; [done|]); (split; [done|]); (split; [done|]);
      (split; [eexists; rewrite !elem_of_cons; auto 10|]);
      by intros y1 [=].
Qed.

End Answering.

Lemma generate_answer_touches_nothing_witness :
  let s1 := (process_urls (stub one_page_each (Ok answer_only))
               [py "https://example.com"] fresh_state).1.1 in
  let run := generate_answer (stub one_page_each (Ok answer_only))
               (py "rates?") s1 in
  collection run.1.1 = collection s1 /\ length (collection s1) = 1.
Proof.
  simpl.
  split; [|vm_compute; reflexivity].
  destruct (generate_answer (stub one_page_each (Ok answer_only)) (py "rates?")
              (process_urls (stub one_page_each (Ok answer_only))
                 [py "https://example.com"] fresh_state).1.1)
    as [[s' evs] r] eqn:Hrun.
  exact (proj1 (generate_answer_touches_nothing _ _ _ _ _ _ Hrun)).
Defined.

Lemma generate_answer_when_ready_witness :
  let s1 := (process_urls (stub one_page_each (Ok answer_only))
               [py "https://example.com"] fresh_state).1.1 in
  exists s' evs r,
    generate_answer (stub one_page_each (Ok answer_only)) (py " rates? ") s1
    = (s', evs, r)
    /\ self s' = self s1 /\ created evs = [].
Proof.
  simpl.
  destruct (generate_answer_when_ready (stub one_page_each (Ok answer_only))
              (py " rates? ") (py "rates?")
              (process_urls (stub one_page_each (Ok answer_only))
                 [py "https://example.com"] fresh_state).1.1 0 2)
    as (s' & evs & r & Hrun & Hself & _ & Hcreated & _);
    try (vm_compute; reflexivity).
  by exists s', evs, r.
Defined.

(** ** [health_check] and [get_collection_info] *)

(** A value of the dictionary [get_collection_info] returns. *)
Inductive PyValue : Type :=
| PyStr (s : str)
| PyInt (n : nat).

(** The dictionary [health_check] starts from. *)
Definition health_unknown : gmap str str :=
  {[ py "llm" := py "unknown"; py "embeddings" := py "unknown";
     py "vector_store" := py "unknown"; py "overall" := py "unknown" ]}.

Definition health_status (healthy : bool) : str :=
  if healthy then py "healthy" else py "unhealthy".

Section Diagnostics.

Context {X : Type} (ext : Externals X).

(** [self.vector_store._collection.count()]: a call to Chroma that may
    fail; when it returns, it returns the number of entries of the
    collection. *)
Variable Chroma_count : X -> X * Res unit.

(** The statements of a [try] block that work on one local dictionary,
    each of which changes it as its last action: a statement that raises
    hands the dictionary to the [except] clause as it found it. *)
Fixpoint try_block {L : Type} (statements : list (L -> M X L))
    (handler : exn -> L -> M X L) (local : L) : M X L :=
  match statements with
  | [] => ret local
  | statement :: rest => fun s =>
      match statement local s with
      | (s1, ev1, Ok local1) =>
          match try_block rest handler local1 s1 with
          | (s2, ev2, r) => (s2, ev1 ++ ev2, r)
          end
      | (s1, ev1, Raise e) =>
          match handler e local s1 with
          | (s2, ev2, r) => (s2, ev1 ++ ev2, r)
          end
      end
  end.

(** One of the three checks of [health_check]:
    [try: _ = self.<component>; health[component] = "healthy"]
    [except Exception: health[component] = "unhealthy"]. *)
Definition probe {A} (component : str) (access : M X A)
    (health : gmap str str) : M X (gmap str str) :=
  try_except
    (_ <- access ;; ret (<[component := py "healthy"]> health))
    (fun _ => ret (<[component := py "unhealthy"]> health)).

(** [all(status == "healthy" for status in health.values()
         if status != "unknown")] and the assignment of ["overall"]. *)
Definition overall_health (health : gmap str str) : M X (gmap str str) :=
  let all_healthy :=
    bool_decide (map_Forall (fun _ status =>
                   status <> py "unknown" -> status = py "healthy") health) in
  ret (<[py "overall" := if all_healthy then py "healthy" else py "unhealthy"]>
         health).

(** [RAGService.health_check] *)
Definition health_check : M X (gmap str str) :=
  try_block
    [probe (py "llm") (llm ext);
     probe (py "embeddings") (embeddings ext);
     probe (py "vector_store") (vector_store ext);
     overall_health]
    (fun e health =>
       logger_error (py "Health check failed: " ++ exc_str e) ;;
       ret (<[py "overall" := py "error"]> health))
    health_unknown.

(** [RAGService.get_collection_info] *)
Definition get_collection_info : M X (gmap str PyValue) :=
  try_except
    (svc <- get_self ;;
     if negb (_initialized svc) || bool_decide (_vector_store svc = None) then
       ret {[ py "status" := PyStr (py "not_initialized");
              py "count" := PyInt 0 ]}
     else
       _ <- vector_store ext ;;
       counted <- call_outside Chroma_count ;;
       _ <- of_res counted ;;
       c <- get_collection ;;
       let count := length c in
       ret {[ py "status" := PyStr (py "initialized");
              py "count" := PyInt count;
              py "collection_name" := PyStr (collection_name settings) ]})
    (fun e =>
       logger_error (py "Failed to get collection info: " ++ exc_str e) ;;
       ret {[ py "status" := PyStr (py "error");
              py "error" := PyStr (exc_str e) ]}).

End Diagnostics.

(** A [count] that succeeds. *)
Definition count_ok (x : nat) : nat * Res unit := (x, Ok tt).

Example health_check_fresh :
  (health_check (stub one_page_each (Ok ∅)) fresh_state).2
  = Ok {[ py "llm" := py "healthy"; py "embeddings" := py "healthy";
          py "vector_store" := py "healthy"; py "overall" := py "healthy" ]}.
Proof. vm_compute. reflexivity. Qed.

Example health_check_without_llm :
  (health_check stub_without_llm fresh_state).2
  = Ok {[ py "llm" := py "unhealthy"; py "embeddings" := py "healthy";
          py "vector_store" := py "healthy"; py "overall" := py "unhealthy" ]}.
Proof. vm_compute. reflexivity. Qed.

Example get_collection_info_fresh :
  (get_collection_info (stub one_page_each (Ok ∅)) count_ok fresh_state).2
  = Ok {[ py "status" := PyStr (py "not_initialized"); py "count" := PyInt 0 ]}.
Proof. vm_compute. reflexivity. Qed.

(** The dictionaries of [get_collection_info]. *)
Definition info_not_initialized : gmap str PyValue :=
  {[ py "status" := PyStr (py "not_initialized"); py "count" := PyInt 0 ]}.

Definition info_initialized (count : nat) : gmap str PyValue :=
  {[ py "status" := PyStr (py "initialized"); py "count" := PyInt count;
     py "collection_name" := PyStr (py "docs") ]}.

Definition info_error (message : str) : gmap str PyValue :=
  {[ py "status" := PyStr (py "error"); py "error" := PyStr message ]}.

(** The report of [health_check] for the outcome of the three checks. *)
Definition health_report (llm_ok embeddings_ok store_ok : bool) : gmap str str :=
  {[ py "llm" := health_status llm_ok;
     py "embeddings" := health_status embeddings_ok;
     py "vector_store" := health_status store_ok;
     py "overall" := health_status (llm_ok && embeddings_ok && store_ok) ]}.

Definition is_Ok {A} (r : Res A) : bool :=
  match r with Ok _ => true | Raise _ => false end.

Section DiagnosticsFacts.

Context {X : Type} (ext : Externals X) (Chroma_count : X -> X * Res unit).

Lemma probe_run {A} (component : str) (access : M X A) health s :
  probe component access health s =
  match access s with
  | (s1, evs, r) =>
      (s1, evs ++ [], Ok (<[component := health_status (is_Ok r)]> health))
  end.
Proof.
  unfold probe, try_except, bind, ret.
  by destruct (access s) as [[s1 evs] [a|e]].
Qed.

(** A run of [health_check] is the three accesses in the order [llm],
    [embeddings], [vector_store], and its report says which of them
    returned. *)
Lemma health_check_run s :
  exists s1 ev1 r1 s2 ev2 r2 s3 ev3 r3,
    llm ext s = (s1, ev1, r1)
    /\ embeddings ext s1 = (s2, ev2, r2)
    /\ vector_store ext s2 = (s3, ev3, r3)
    /\ health_check ext s
       = (s3, (ev1 ++ []) ++ (ev2 ++ []) ++ (ev3 ++ []) ++ [] ++ [],
          Ok (health_report (is_Ok r1) (is_Ok r2) (is_Ok r3))).
Proof.
  destruct (llm ext s) as [[s1 ev1] r1] eqn:H1.
  destruct (embeddings ext s1) as [[s2 ev2] r2] eqn:H2.
  destruct (vector_store ext s2) as [[s3 ev3] r3] eqn:H3.
  exists s1, ev1, r1, s2, ev2, r2, s3, ev3, r3.
  split; [done|]. split; [done|]. split; [done|].
  unfold health_check. cbn [try_block].
  rewrite probe_run, H1, probe_run, H2, probe_run, H3.
  unfold overall_health, ret. f_equal. f_equal.
  destruct r1, r2, r3; by vm_compute.
Qed.

(** [health_check] never raises.  Its report has the four keys; a
    component is reported healthy only if its handle is there afterwards,
    and the whole is reported healthy exactly when the three components
    are.  The check leaves the collection, the handles that were there
    and the flag as they were: it can create the three objects, and it
    never marks the service as initialised. *)
Theorem health_check_report s :
  exists s' evs (llm_ok embeddings_ok store_ok : bool),
    health_check ext s
    = (s', evs, Ok (health_report llm_ok embeddings_ok store_ok))
    /\ (llm_ok = true -> is_Some (_llm (self s')))
    /\ (embeddings_ok = true -> is_Some (_embeddings (self s')))
    /\ (store_ok = true -> is_Some (_vector_store (self s')))
    /\ collection s' = collection s
    /\ keeps_handles (self s) (self s').
Proof.
  destruct (health_check_run s)
    as (s1 & ev1 & r1 & s2 & ev2 & r2 & s3 & ev3 & r3 & H1 & H2 & H3 & Hrun).
  apply llm_spec in H1 as (_ & Hc1 & Hk1 & Hs1 & _).
  apply embeddings_spec in H2 as (_ & Hc2 & Hk2 & Hs2 & _).
  apply vector_store_spec in H3 as (_ & Hc3 & Hk3 & Hs3 & _).
  eexists s3, _, (is_Ok r1), (is_Ok r2), (is_Ok r3).
  split; [exact Hrun|].
  destruct Hk2 as (L2 & E2 & V2 & F2), Hk3 as (L3 & E3 & V3 & F3).
  split; [|split; [|split; [|split]]].
  - destruct r1 as [h|]; [|done]. intros _. exists h. apply L3, L2. by apply Hs1.
  - destruct r2 as [h|]; [|done]. intros _. exists h. apply E3. by apply Hs2.
  - destruct r3 as [h|]; [|done]. intros _. exists h. by apply Hs3.
  - congruence.
  - apply (keeps_handles_trans _ (self s1)); [done|].
    apply (keeps_handles_trans _ (self s2)); by repeat split.
Qed.

Lemma get_collection_info_not_initialized s :
  _initialized (self s) = false \/ _vector_store (self s) = None ->
  get_collection_info ext Chroma_count s = (s, [], Ok info_not_initialized).
Proof.
  intros Hun. unfold get_collection_info, try_except, bind, get_self, ret.
  assert (Hc : negb (_initialized (self s))
               || bool_decide (_vector_store (self s) = None) = true).
  { destruct Hun as [-> | ->]; [done|]. by rewrite orb_true_r. }
  by rewrite Hc.
Qed.

Lemma get_collection_info_initialized s vs :
  _initialized (self s) = true -> _vector_store (self s) = Some vs ->
  exists evs,
    get_collection_info ext Chroma_count s
    = (set_outside (Chroma_count (outside s)).1 s, evs,
       Ok match (Chroma_count (outside s)).2 with
          | Ok _ => info_initialized (length (collection s))
          | Raise e => info_error (exc_str e)
          end).
Proof.
  intros Hflag Hv. unfold get_collection_info.
  unfold try_except. unfold bind at 1. unfold get_self at 1.
  rewrite Hflag, Hv. rewrite bool_decide_eq_false_2 by done.
  cbn [negb orb]. cbv beta iota.
  unfold bind at 1. rewrite (vector_store_cached ext s vs Hv).
  unfold bind, call_outside, of_res, get_collection, ret, logger_error, emit.
  destruct (Chroma_count (outside s)) as [x' [[]|e]]; simpl; eauto.
Qed.

(** [get_collection_info] never raises and changes nothing of the
    service or the collection.  It answers ["not_initialized"] with count
    0, without a call to the outside, as long as the flag is unset or the
    vector store handle is absent; on an initialised service it answers
    with the number of entries of the collection, or with ["error"] and
    the message when counting fails. *)
Theorem get_collection_info_report s :
  exists s' evs info,
    get_collection_info ext Chroma_count s = (s', evs, Ok info)
    /\ self s' = self s /\ collection s' = collection s
    /\ (_initialized (self s) = false \/ _vector_store (self s) = None ->
        s' = s /\ evs = [] /\ info = info_not_initialized)
    /\ (_initialized (self s) = true -> is_Some (_vector_store (self s)) ->
        info = match (Chroma_count (outside s)).2 with
               | Ok _ => info_initialized (length (collection s))
               | Raise e => info_error (exc_str e)
               end).
Proof.
  destruct (_initialized (self s)) eqn:Hflag;
    [destruct (_vector_store (self s)) as [vs|] eqn:Hv|].
  - destruct (get_collection_info_initialized s vs Hflag Hv) as [evs Hrun].
    eexists _, evs, _. split; [exact Hrun|].
    split; [done|]. split; [done|]. split; [|done].
    by intros [|].
  - rewrite get_collection_info_not_initialized by by right.
    eexists _, _, _. split; [reflexivity|].
    split; [done|]. split; [done|]. split; [done|].
    by intros _ [? ?].
  - rewrite get_collection_info_not_initialized by by left.
    eexists _, _, _. split; [reflexivity|].
    split; [done|]. split; [done|]. split; [done|]. done.
Qed.

(** After [health_check] alone the service is still not initialised, even
    when the three components are healthy: [get_collection_info] answers
    ["not_initialized"] and [generate_answer] refuses an accepted query
    with its [VectorStoreError]. *)
Theorem health_check_does_not_initialize s s' evs r :
  _initialized (self s) = false ->
  health_check ext s = (s', evs, r) ->
  _initialized (self s') = false
  /\ get_collection_info ext Chroma_count s' = (s', [], Ok info_not_initialized)
  /\ forall query q, validate_query query = Ok q ->
       exists evs',
         generate_answer ext query s'
         = (s', evs',
            Raise (Exn VectorStoreError
                     (py "Vector store not initialized. Please process URLs first."))).
Proof.
  intros Hflag Hrun.
  destruct (health_check_run s)
    as (s1 & ev1 & r1 & s2 & ev2 & r2 & s3 & ev3 & r3 & H1 & H2 & H3 & Hrun').
  rewrite Hrun' in Hrun. injection Hrun as <- _ _.
  apply llm_spec in H1 as (_ & _ & (_ & _ & _ & F1) & _).
  apply embeddings_spec in H2 as (_ & _ & (_ & _ & _ & F2) & _).
  apply vector_store_spec in H3 as (_ & _ & (_ & _ & _ & F3) & _).
  assert (Hflag' : _initialized (self s3) = false) by congruence.
  split; [done|].
  split; [apply get_collection_info_not_initialized; by left|].
  intros query q Hq. apply (generate_answer_not_initialized ext query q); [done|].
  by left.
Qed.

(** After a run of [process_urls] that completes, [get_collection_info]
    reports the service as initialised, with as many entries as the
    splitter returned chunks, when the count succeeds. *)
Theorem get_collection_info_after_ingestion (urls : list str) s s1 evs :
  process_urls ext urls s = (s1, evs, Ok tt) ->
  (Chroma_count (outside s1)).2 = Ok tt ->
  exists docs chunks,
    EvSplit splitter_config docs (Ok chunks) ∈ evs
    /\ (get_collection_info ext Chroma_count s1).2
       = Ok (info_initialized (length chunks)).
Proof.
  intros Hrun Hcount.
  destruct (process_urls_service_facts ext _ _ _ _ _ Hrun) as (_ & _ & Hready).
  destruct (Hready eq_refl) as [Hflag [vs Hv]].
  destruct (process_urls_collection_facts ext _ _ _ _ Hrun)
    as (docs & chunks & ids & Hsplit & _ & _ & _ & Hlen).
  exists docs, chunks. split; [done|].
  destruct (get_collection_info_initialized s1 vs Hflag Hv) as [evs' ->].
  simpl. by rewrite Hcount, Hlen.
Qed.

End DiagnosticsFacts.

Lemma health_check_does_not_initialize_witness :
  let run := health_check (stub one_page_each (Ok ∅)) fresh_state in
  run.2 = Ok (health_report true true true)
  /\ _initialized (self run.1.1) = false
  /\ get_collection_info (stub one_page_each (Ok ∅)) count_ok run.1.1
     = (run.1.1, [], Ok info_not_initialized).
Proof.
  assert (Hr : (health_check (stub one_page_each (Ok ∅)) fresh_state).2
               = Ok (health_report true true true)) by (vm_compute; reflexivity).
  destruct (health_check (stub one_page_each (Ok ∅)) fresh_state)
    as [[s' evs] r] eqn:Hrun.
  simpl in *. split; [exact Hr|].
  destruct (health_check_does_not_initialize (stub one_page_each (Ok ∅)) count_ok
              fresh_state s' evs r eq_refl Hrun) as (Hflag & Hinfo & _).
  by split.
Defined.

Lemma get_collection_info_after_ingestion_witness :
  let run := process_urls (stub one_page_each (Ok ∅))
               [py "https://a.example"; py "https://b.example"] used_state in
  exists docs chunks,
    EvSplit splitter_config docs (Ok chunks) ∈ run.1.2
    /\ (get_collection_info (stub one_page_each (Ok ∅)) count_ok run.1.1).2
       = Ok (info_initialized (length chunks)).
Proof.
  assert (Hr : (process_urls (stub one_page_each (Ok ∅))
                  [py "https://a.example"; py "https://b.example"] used_state).2
               = Ok tt) by (vm_compute; reflexivity).
  destruct (process_urls (stub one_page_each (Ok ∅))
              [py "https://a.example"; py "https://b.example"] used_state)
    as [[s1 evs] r] eqn:Hrun.
  simpl in *. subst r.
  exact (get_collection_info_after_ingestion (stub one_page_each (Ok ∅))
           count_ok _ _ _ _ Hrun eq_refl).
Defined.

Example get_collection_info_two_chunks :
  let s1 := (process_urls (stub one_page_each (Ok ∅))
               [py "https://a.example"; py "https://b.example"] used_state).1.1 in
  (get_collection_info (stub one_page_each (Ok ∅)) count_ok s1).2
  = Ok (info_initialized 2).
Proof. vm_compute. reflexivity. Qed.
